(** * The SAR simulator's orchestrator and artifact chain

    A shallow embedding of [sar_simulator.c]: the chain of [matrix] nodes
    (the artifact store), its lookup and append operations, the console
    dialogue, and the fixed order in which [main], [simulate] and
    [process_data] drive the signal-processing stages.

    The stages themselves ([chirp_generator], [gbp], [write_data], ...) live
    in other translation units; they enter the development as the fields of
    the [Stages] class. *)

From Stdlib Require Import ZArith String Ascii Lia.
From stdpp Require Import base list strings.

Set Default Proof Using "Type".

(** ** Data model *)

(** Modelled from the spec: [sar_simulator.h], which declares [matrix] and
    [radar_variables], is not among the sources.  The structures below carry
    the fields the spec gives an artifact and a run context, which are the
    fields this file reads and writes.  What neither fixes stays open: the
    contents of a buffer of [complex double] samples, the values of [double]
    and how [printf] renders one under [%lf], and the fields of
    [radar_variables] besides the two that [main] touches. *)
Class Declarations := {
  contents : Type;
  double : Type;
  printf_lf : double -> string;
  radar_params : Type
}.

Section Chain.
Context {decl : Declarations}.

(** What a non-null [complex double*] points to: [elems] is the number of
    samples the allocation holds, [samples] what has been written there
    ([None] straight after [malloc]). *)
Record buffer := Buffer { elems : Z; samples : option contents }.

(** Modelled from the spec: [struct matrix], the spec's artifact, with its
    name, dimensions and buffer ([None] for a [NULL] buffer).  The [next]
    link is the position in the chain: a chain is the list of its nodes from
    the head on, and [NULL] ends it.  Names are C strings: [strcmp] finds two
    of them equal when they are the same string. *)
Record matrix := Matrix {
  m_name : string;
  m_rows : Z;
  m_cols : Z;
  m_data : option buffer
}.

(** What [memset(ptr, 0, sizeof(matrix))] leaves in a node. *)
Definition zero_matrix : matrix :=
  {| m_name := ""; m_rows := 0; m_cols := 0; m_data := None |}.

(** The chain a non-null [matrix* data] points to: the node itself and the
    nodes reached through [next], in link order. *)
Record store := Store { header : matrix; artifacts : list matrix }.

Definition nodes (data : store) : list matrix := header data :: artifacts data.

(** A [matrix*] into the chain of [data]: [None] is [NULL], [Some p] the
    node [p] links away from the head. *)
Definition ptr := option nat.

(** [ptr->field = v] for a node of the chain. *)
Definition set_node (p : nat) (f : matrix -> matrix) (data : store) : store :=
  match p with
  | O => {| header := f (header data); artifacts := artifacts data |}
  | S k => {| header := header data; artifacts := alter f k (artifacts data) |}
  end.

Definition strcpy_name (name : string) (m : matrix) : matrix :=
  {| m_name := name; m_rows := m_rows m; m_cols := m_cols m; m_data := m_data m |}.

Definition set_rows (r : Z) (m : matrix) : matrix :=
  {| m_name := m_name m; m_rows := r; m_cols := m_cols m; m_data := m_data m |}.

Definition set_cols (c : Z) (m : matrix) : matrix :=
  {| m_name := m_name m; m_rows := m_rows m; m_cols := c; m_data := m_data m |}.

Definition set_data (b : option buffer) (m : matrix) : matrix :=
  {| m_name := m_name m; m_rows := m_rows m; m_cols := m_cols m; m_data := b |}.

(** ** [get_matrix] *)

(** The [while(ptr != NULL)] loop; [at_] is how many links [ptr] is away
    from the head. *)
Fixpoint get_matrix_scan (ptr : list matrix) (at_ : nat) (name : string)
  : option nat :=
  match ptr with
  | [] => None
  | m :: next =>
      if String.eqb name (m_name m) then Some at_
      else get_matrix_scan next (S at_) name
  end.

Definition get_matrix (data : option store) (name : string) : ptr :=
  match data with
  | None => None
  | Some d => get_matrix_scan (nodes d) 0 name
  end.

(** ** [get_last_node] *)

(** The [do ... while(1)] walk to the node whose [next] is [NULL], and the
    link of a zeroed node behind it.  [next] is the chain after [ptr], [at_]
    the position of [ptr]; the result is the chain after [ptr] once the new
    node is linked, and the position of the new node. *)
Fixpoint get_last_node_walk (next : list matrix) (at_ : nat)
  : list matrix * nat :=
  match next with
  | [] => ([zero_matrix], S at_)
  | m :: next' =>
      let (linked, p) := get_last_node_walk next' (S at_) in (m :: linked, p)
  end.

(** [None] when the function returns [NULL] (and changes nothing); else the
    chain after the call and the node returned. *)
Definition get_last_node (data : option store) : option (store * nat) :=
  match data with
  | None => None
  | Some d =>
      let (linked, p) := get_last_node_walk (artifacts d) 0 in
      Some ({| header := header d; artifacts := linked |}, p)
  end.

End Chain.

(** ** Machine state *)

Section Machine.
Context {decl : Declarations}.

(** Modelled from the spec: [struct radar_variables], the spec's run
    context: the two fields [main] reads and writes, and the rest.  [mode]
    holds what [getchar] returned; the comparisons with ['p'] and ['s'] come
    out the same whether the field is an [int] or a [char]. *)
Record radar_variables := Radar_variables {
  mode : Z;
  radar_data_filename : string;
  params : radar_params
}.

(** What a stage called with [(data, variables)] can reach: the chain behind
    [data], the variables, and the unread part of standard input. *)
Record world := World {
  chain : store;
  variables : radar_variables;
  stdin : string
}.

Definition set_chain (d : store) (w : world) : world :=
  {| chain := d; variables := variables w; stdin := stdin w |}.

Definition set_variables (v : radar_variables) (w : world) : world :=
  {| chain := chain w; variables := v; stdin := stdin w |}.

Definition set_stdin (input : string) (w : world) : world :=
  {| chain := chain w; variables := variables w; stdin := input |}.

Definition set_mode (c : Z) (v : radar_variables) : radar_variables :=
  {| mode := c; radar_data_filename := radar_data_filename v; params := params v |}.

Definition set_radar_data_filename (f : string) (v : radar_variables)
  : radar_variables :=
  {| mode := mode v; radar_data_filename := f; params := params v |}.

(** What this translation unit does that can be observed from outside: the
    text it prints and the stages it calls, in order. *)
Inductive event :=
| Printf (text : string)
| Call_chirp_generator
| Call_chirp_matched_generator
| Call_fft_waveform (n : Z) (input output : option buffer)
| Call_pulse_compress_signal
| Call_calculate_compressed_pulse_resolution
| Call_insert_waveform_in_scene
| Call_radar_imager
| Call_cinsnowfilters
| Call_pulse_compress_image
| Call_gbp
| Call_gbp_fft
| Call_read_radar_file
| Call_write_data.

Record state := State { now : world; log : list event }.

(** How a statement ends: control goes on with a value, a [return] is on its
    way out of the function, a [NULL] pointer was dereferenced, or a loop
    used up its budget of iterations. *)
Inductive outcome (R A : Type) :=
| Done (a : A) (s : state)
| Returning (r : R) (s : state)
| Fault (s : state)
| Spin (s : state).
Arguments Done {R A}.
Arguments Returning {R A}.
Arguments Fault {R A}.
Arguments Spin {R A}.

Definition state_of {R A} (o : outcome R A) : state :=
  match o with
  | Done _ s | Returning _ s | Fault s | Spin s => s
  end.

(** Statements of a function whose return type is [R]. *)
Definition M (R A : Type) : Type := state -> outcome R A.

Definition ret {R A} (a : A) : M R A := fun s => Done a s.

Definition bind {R A B} (m : M R A) (k : A -> M R B) : M R B :=
  fun s =>
    match m s with
    | Done a s' => k a s'
    | Returning r s' => Returning r s'
    | Fault s' => Fault s'
    | Spin s' => Spin s'
    end.

(** [return r;] *)
Definition return_ {R A} (r : R) : M R A := fun s => Returning r s.

(** A call: the callee's [return] (or the end of a [void] body) is where the
    caller goes on. *)
Definition call {R A} (body : M A A) : M R A :=
  fun s =>
    match body s with
    | Done a s' | Returning a s' => Done a s'
    | Fault s' => Fault s'
    | Spin s' => Spin s'
    end.

End Machine.

Arguments Done {_ R A}.
Arguments Returning {_ R A}.
Arguments Fault {_ R A}.
Arguments Spin {_ R A}.

Declare Scope prog_scope.
Delimit Scope prog_scope with prog.
Notation "x <- m ;; k" := (bind m (fun x => k))
  (at level 100, m at next level, right associativity) : prog_scope.
Notation "m ;; k" := (bind m (fun _ => k))
  (at level 100, k at level 200, right associativity) : prog_scope.

(** ** The stages

    The functions this file calls and other files define.  A stage that is
    handed [(data, variables)] may rewrite the chain, the variables, and read
    from the console; [fft_waveform] is handed two sample buffers and yields
    what it writes to the second.  A stage is taken to come back to its
    caller. *)
Class Stages {decl : Declarations} := {
  chirp_generator : world -> world;
  chirp_matched_generator : world -> world;
  fft_waveform : Z -> option buffer -> option buffer -> contents;
  pulse_compress_signal : world -> world;
  calculate_compressed_pulse_resolution : world -> double * world;
  insert_waveform_in_scene : world -> world;
  radar_imager : world -> world;
  cinsnowfilters : world -> world;
  pulse_compress_image : world -> world;
  gbp : world -> world;
  gbp_fft : world -> world;
  read_radar_file : world -> Z * world;
  write_data : world -> Z * world
}.

Section Program.
Context {decl : Declarations} {stg : Stages}.
Open Scope prog_scope.

(** *** Statements *)

(** An event goes into the log. *)
Definition note {R} (e : event) : M R unit :=
  fun s => Done tt {| now := now s; log := log s ++ [e] |}.

Definition printf {R} (text : string) : M R unit := note (Printf text).

(** A read of, and a write to, [variables]. *)
Definition read {R A} (field : radar_variables -> A) : M R A :=
  fun s => Done (field (variables (now s))) s.

Definition write {R} (f : radar_variables -> radar_variables) : M R unit :=
  fun s => Done tt {| now := set_variables (f (variables (now s))) (now s);
                      log := log s |}.

(** [stage(data, variables);] *)
Definition invoke {R} (e : event) (stage : world -> world) : M R unit :=
  fun s => Done tt {| now := stage (now s); log := log s ++ [e] |}.

(** [x = stage(data, variables);] *)
Definition invoke_for {R A} (e : event) (stage : world -> A * world) : M R A :=
  fun s =>
    Done (fst (stage (now s)))
         {| now := snd (stage (now s)); log := log s ++ [e] |}.

(** [get_matrix(data, name)], [data] being the head of the chain. *)
Definition lookup {R} (name : string) : M R ptr :=
  fun s => Done (get_matrix (Some (chain (now s))) name) s.

(** [get_last_node(data)] *)
Definition append {R} : M R ptr :=
  fun s =>
    match get_last_node (Some (chain (now s))) with
    | Some (d, p) => Done (Some p) {| now := set_chain d (now s); log := log s |}
    | None => Done None s
    end.

(** [p->field] *)
Definition load {R A} (p : ptr) (field : matrix -> A) : M R A :=
  fun s =>
    match p with
    | None => Fault s
    | Some i =>
        match nodes (chain (now s)) !! i with
        | Some m => Done (field m) s
        | None => Fault s
        end
    end.

(** [p->field = v;] *)
Definition assign {R} (p : ptr) (f : matrix -> matrix) : M R unit :=
  fun s =>
    match p with
    | None => Fault s
    | Some i =>
        match nodes (chain (now s)) !! i with
        | Some _ =>
            Done tt {| now := set_chain (set_node i f (chain (now s))) (now s);
                       log := log s |}
        | None => Fault s
        end
    end.

(** *** Memory *)

Definition sizeof_complex_double : Z := 16.

(** [malloc(bytes)] for a buffer of [complex double], when the request is
    served: the code never tests the result, and here the allocation is
    taken to succeed.  [simulate_spectra_on] below leaves open what the two
    requests of [simulate], whose size the generators decide, come back
    with. *)
Definition malloc (bytes : Z) : option buffer :=
  Some {| elems := bytes / sizeof_complex_double; samples := None |}.

(** What a buffer holds once a stage has written [c] through the pointer. *)
Definition written (c : contents) (out : option buffer) : option buffer :=
  match out with
  | Some b => Some {| elems := elems b; samples := Some c |}
  | None => None
  end.

(** *** Console *)

Definition EOF : Z := -1.

Definition char_code (c : ascii) : Z := Z.of_nat (nat_of_ascii c).

(** [getchar()] *)
Definition getchar {R} : M R Z :=
  fun s =>
    match stdin (now s) with
    | EmptyString => Done EOF s
    | String c rest =>
        Done (char_code c) {| now := set_stdin rest (now s); log := log s |}
    end.

Definition isspace (c : ascii) : bool :=
  let n := nat_of_ascii c in
  Nat.eqb n 32 || (Nat.leb 9 n && Nat.leb n 13).

Fixpoint skip_space (input : string) : string :=
  match input with
  | EmptyString => EmptyString
  | String c rest => if isspace c then skip_space rest else input
  end.

Fixpoint read_word (input : string) : string * string :=
  match input with
  | EmptyString => (EmptyString, EmptyString)
  | String c rest =>
      if isspace c then (EmptyString, input)
      else let (word, rest') := read_word rest in (String c word, rest')
  end.

(** [scanf("%s", variables.radar_data_filename)]: white space is skipped, a
    word is stored; [EOF] when the input ends before a word starts. *)
Definition scanf_radar_data_filename {R} : M R Z :=
  fun s =>
    match skip_space (stdin (now s)) with
    | EmptyString =>
        Done EOF {| now := set_stdin EmptyString (now s); log := log s |}
    | String c rest =>
        let (word, rest') := read_word (String c rest) in
        Done 1%Z
             {| now := set_stdin rest'
                         (set_variables
                            (set_radar_data_filename word (variables (now s)))
                            (now s));
                log := log s |}
    end.

(** [scanf("%c", &pc)]: the result and the value of [pc] afterwards. *)
Definition scanf_char {R} (pc : ascii) : M R (Z * ascii) :=
  fun s =>
    match stdin (now s) with
    | EmptyString => Done (EOF, pc) s
    | String c rest =>
        Done (1%Z, c) {| now := set_stdin rest (now s); log := log s |}
    end.

Definition nl : string := String (ascii_of_nat 10) EmptyString.

(** *** [simulate] *)

(** [fft_waveform(n, input, out)], [out] being the buffer node [owner]
    holds. *)
Definition call_fft_waveform {R} (n : Z) (input : option buffer) (owner : ptr)
  : M R unit :=
  out <- load owner m_data ;;
  note (Call_fft_waveform n input out) ;;
  assign owner (set_data (written (fft_waveform n input out) out)).

(** From the first line of [simulate] to the second [fft_waveform] call. *)
Definition simulate_spectra {R} : M R unit :=
  invoke Call_chirp_generator chirp_generator ;;
  invoke Call_chirp_matched_generator chirp_matched_generator ;;

  meta_chirp <- lookup "chirp" ;;
  chirp <- load meta_chirp m_data ;;

  meta_match <- lookup "match" ;;
  match_ <- load meta_match m_data ;;

  meta_chirp_fft <- append ;;
  rows <- load meta_chirp m_rows ;;
  assign meta_chirp_fft (set_data (malloc (rows * sizeof_complex_double))) ;;
  rows <- load meta_chirp m_rows ;;
  assign meta_chirp_fft (set_rows rows) ;;
  cols <- load meta_chirp m_cols ;;
  assign meta_chirp_fft (set_cols cols) ;;
  assign meta_chirp_fft (strcpy_name "chirp_fft") ;;

  meta_match_fft <- append ;;
  rows <- load meta_match m_rows ;;
  assign meta_match_fft (set_data (malloc (rows * sizeof_complex_double))) ;;
  rows <- load meta_chirp m_rows ;;
  assign meta_match_fft (set_rows rows) ;;
  cols <- load meta_chirp m_cols ;;
  assign meta_match_fft (set_cols cols) ;;
  assign meta_match_fft (strcpy_name "match_fft") ;;

  rows <- load meta_chirp m_rows ;;
  call_fft_waveform rows chirp meta_chirp_fft ;;
  rows <- load meta_match m_rows ;;
  call_fft_waveform rows match_ meta_match_fft.

(** From [pulse_compress_signal] to [radar_imager]. *)
Definition simulate_scene {R} : M R unit :=
  invoke Call_pulse_compress_signal pulse_compress_signal ;;

  resolution <- invoke_for Call_calculate_compressed_pulse_resolution
                  calculate_compressed_pulse_resolution ;;
  printf ("Compressed pulse resolution: " +:+ printf_lf resolution
          +:+ "m" +:+ nl) ;;

  invoke Call_insert_waveform_in_scene insert_waveform_in_scene ;;

  invoke Call_radar_imager radar_imager.

Definition simulate : M Z Z :=
  simulate_spectra ;;
  simulate_scene ;;
  return_ 0%Z.

(** *** [process_data] *)

(** [do{ ret = scanf("%c", &pc); if(pc == 'y') break; else if(pc == 'n')
    break; }while(1);] with at most [fuel] iterations; the value is [pc]
    after the loop. *)
Fixpoint do_while_yes_no {R} (fuel : nat) (pc : ascii) : M R ascii :=
  match fuel with
  | O => fun s => Spin s
  | S fuel' =>
      r <- scanf_char pc ;;
      let pc := snd r in
      if Ascii.eqb pc "y" then ret pc
      else if Ascii.eqb pc "n" then ret pc
      else do_while_yes_no fuel' pc
  end.

Definition process_data (fuel : nat) : M unit unit :=
  let pc := zero in

  printf "Do you want to employ CinSnow filtering to radar image (y/n)? " ;;
  pc <- do_while_yes_no fuel pc ;;
  (if Ascii.eqb pc "y" then
     printf "Running CinSnow filters ... " ;;
     invoke Call_cinsnowfilters cinsnowfilters ;;
     printf ("done." +:+ nl)
   else ret tt) ;;

  printf "Do you want to enable pulse compression (y/n)? " ;;
  pc <- do_while_yes_no fuel pc ;;
  (if Ascii.eqb pc "y" then
     printf "Pulse-compressing image ... " ;;
     invoke Call_pulse_compress_image pulse_compress_image ;;
     printf ("done." +:+ nl)
   else ret tt) ;;

  invoke Call_gbp gbp ;;

  printf "Generating 2D FFT of GBP image ... " ;;
  invoke Call_gbp_fft gbp_fft ;;
  printf ("done." +:+ nl).

(** *** [build_metadata] *)

(** [unsigned int] arithmetic, for an [unsigned int] of 32 bits; the byte
    count handed to [malloc] is a [size_t] of 64 bits and does not wrap. *)
Definition UINT_MAX : Z := 2 ^ 32 - 1.

Definition uint (n : Z) : Z := n mod (UINT_MAX + 1).

(** The [while(ptr != NULL){ elements++; ptr = ptr->next; }] loop. *)
Fixpoint build_metadata_count (ptr : list matrix) (elements : Z) : Z :=
  match ptr with
  | [] => elements
  | _ :: next => build_metadata_count next (uint (elements + 1))
  end.

Definition build_metadata : M unit unit :=
  fun s =>
    let data := chain (now s) in
    let ptr := artifacts data in
    let elements := build_metadata_count ptr 0 in
    assign (Some 0)
      (set_data (malloc (elements * sizeof_complex_double))) s.

(** *** [main] *)

(** The state the first three lines of [main] set up: the header node,
    zeroed and named, [variables] as the stack happens to hold it, nothing
    read or printed yet. *)
Definition boot (variables0 : radar_variables) (input : string) : state :=
  let data := strcpy_name "metadata" zero_matrix in
  {| now := {| chain := {| header := data; artifacts := [] |};
               variables := variables0;
               stdin := input |};
     log := [] |}.

(** From the mode prompt to the end of the [if]/[else if]/[else]. *)
Definition main_flow (fuel : nat) : M Z unit :=
  printf "Do you wish to simulate or process radar data? (s/p): " ;;
  c <- getchar ;;
  write (set_mode c) ;;
  mode <- read mode ;;
  if Z.eqb mode (char_code "p") then
    printf "Please enter file name of raw data: " ;;
    ret_ <- scanf_radar_data_filename ;;
    (if Z.eqb ret_ EOF then
       printf ("Invalid input detected, closing." +:+ nl) ;;
       return_ 0%Z
     else ret tt) ;;
    ok <- invoke_for Call_read_radar_file read_radar_file ;;
    (if Z.eqb ok 0 then
       printf ("Failed to read radar data, closing." +:+ nl) ;;
       return_ 0%Z
     else ret tt) ;;
    call (process_data fuel)
  else if Z.eqb mode (char_code "s") then
    ret_ <- call simulate ;;
    (if Z.eqb ret_ (-1) then return_ 0%Z else ret tt) ;;
    call (process_data fuel)
  else
    printf ("Mode not recognized - exiting." +:+ nl) ;;
    return_ 0%Z.

(** [build_metadata], [write_data], [return 0]. *)
Definition main_finish : M Z Z :=
  call build_metadata ;;
  ret_ <- invoke_for Call_write_data write_data ;;
  return_ 0%Z.

Definition main (fuel : nat) (variables0 : radar_variables) (input : string)
  : outcome Z Z :=
  call (R := Z) (main_flow fuel ;; main_finish) (boot variables0 input).

End Program.

(** ** A set of stages to run the program on

    Small stand-ins with the shape of the real stages: each producer links
    one named artifact behind the chain, the reader fails on one file name,
    the writer changes nothing. *)
Module Demo.

Definition declarations : Declarations :=
  {| contents := list Z;
     double := Z;
     printf_lf := fun _ => "1.500000";
     radar_params := unit |}.

Section Stand_ins.
Existing Instance declarations.

Definition produce (name : string) (rows cols : Z) (w : world) : world :=
  match get_last_node (Some (chain w)) with
  | Some (d, p) =>
      set_chain
        (set_node p
           (fun _ => {| m_name := name; m_rows := rows; m_cols := cols;
                        m_data := Some {| elems := rows * cols;
                                          samples := Some [] |} |})
           d)
        w
  | None => w
  end.

Definition read (w : world) : Z * world :=
  if String.eqb (radar_data_filename (variables w)) "missing.dat"
  then (0%Z, w)
  else (1%Z, produce "radar_image" 8 8 w).

Definition stages : Stages :=
  {| chirp_generator := produce "chirp" 4 1;
     chirp_matched_generator := produce "match" 4 1;
     fft_waveform := fun _ _ _ => [];
     pulse_compress_signal := produce "pulse_compressed_waveform" 7 1;
     calculate_compressed_pulse_resolution := fun w => (3%Z, w);
     insert_waveform_in_scene := produce "scene_with_waveform" 8 8;
     radar_imager := produce "radar_image" 8 8;
     cinsnowfilters := fun w => w;
     pulse_compress_image := produce "pulse_compressed_radar_image" 8 8;
     gbp := produce "gbp_image" 8 8;
     gbp_fft := produce "gbp_fft" 8 8;
     read_radar_file := read;
     write_data := fun w => (1%Z, w) |}.

Definition variables0 : radar_variables :=
  {| mode := 0; radar_data_filename := ""; params := tt |}.

(** The node [produce name 4 1] links. *)
Definition waveform (name : string) : matrix :=
  {| m_name := name; m_rows := 4; m_cols := 1;
     m_data := Some {| elems := 4; samples := Some [] |} |}.

(** A chain of two nodes. *)
Definition two_nodes : store :=
  {| header := strcpy_name "metadata" zero_matrix;
     artifacts := [strcpy_name "chirp" zero_matrix] |}.

(** A state in which [input] is still to be read. *)
Definition prompted (input : string) : state :=
  {| now := {| chain := two_nodes; variables := variables0; stdin := input |};
     log := [] |}.

End Stand_ins.
End Demo.

(** ** Vocabulary of the statements *)

Section Vocabulary.
Context {decl : Declarations} {stg : Stages}.

(** The answers a yes/no prompt waits for. *)
Definition is_answer (c : ascii) : bool := Ascii.eqb c "y" || Ascii.eqb c "n".

Fixpoint no_answer (input : string) : bool :=
  match input with
  | EmptyString => true
  | String c rest => negb (is_answer c) && no_answer rest
  end.

(** How often a stage was called, by the log. *)
Fixpoint count_calls (which : event -> bool) (l : list event) : nat :=
  match l with
  | [] => 0
  | e :: l' => (if which e then 1 else 0) + count_calls which l'
  end.

Definition is_cinsnowfilters (e : event) : bool :=
  match e with Call_cinsnowfilters => true | _ => false end.

Definition is_pulse_compress_image (e : event) : bool :=
  match e with Call_pulse_compress_image => true | _ => false end.

Definition is_write_data (e : event) : bool :=
  match e with Call_write_data => true | _ => false end.

Definition is_call (e : event) : bool :=
  match e with Printf _ => false | _ => true end.

(** The two gated blocks of [process_data], by the answer given: what they
    log and what they do to the world. *)
Definition cinsnow_log (answer : ascii) : list event :=
  if Ascii.eqb answer "y"
  then [Printf "Running CinSnow filters ... "; Call_cinsnowfilters;
        Printf ("done." +:+ nl)]
  else [].

Definition cinsnow_world (answer : ascii) (w : world) : world :=
  if Ascii.eqb answer "y" then cinsnowfilters w else w.

Definition compress_log (answer : ascii) : list event :=
  if Ascii.eqb answer "y"
  then [Printf "Pulse-compressing image ... "; Call_pulse_compress_image;
        Printf ("done." +:+ nl)]
  else [].

Definition compress_world (answer : ascii) (w : world) : world :=
  if Ascii.eqb answer "y" then pulse_compress_image w else w.

(** The nodes [simulate] links for the two spectra, from the nodes found
    under "chirp" and "match". *)
Definition chirp_fft_node (meta_chirp : matrix) : matrix :=
  let out := malloc (m_rows meta_chirp * sizeof_complex_double) in
  {| m_name := "chirp_fft";
     m_rows := m_rows meta_chirp;
     m_cols := m_cols meta_chirp;
     m_data := written (fft_waveform (m_rows meta_chirp) (m_data meta_chirp) out)
                 out |}.

Definition match_fft_node (meta_chirp meta_match : matrix) : matrix :=
  let out := malloc (m_rows meta_match * sizeof_complex_double) in
  {| m_name := "match_fft";
     m_rows := m_rows meta_chirp;
     m_cols := m_cols meta_chirp;
     m_data := written (fft_waveform (m_rows meta_match) (m_data meta_match) out)
                 out |}.

(** The state of [main] once the mode prompt is printed and answered with
    the character [c]. *)
Definition mode_read (variables0 : radar_variables) (c : ascii) (rest : string)
  : state :=
  {| now := {| chain := {| header := strcpy_name "metadata" zero_matrix;
                           artifacts := [] |};
               variables := set_mode (char_code c) variables0;
               stdin := rest |};
     log := [Printf "Do you wish to simulate or process radar data? (s/p): "] |}.

(** What [read_radar_file] is called on in a process run: the header alone,
    the word read at the file-name prompt in [radar_data_filename], the
    input behind that word still to be read. *)
Definition reader_world (variables0 : radar_variables) (rest : string) : world :=
  let (word, rest') := read_word (skip_space rest) in
  {| chain := {| header := strcpy_name "metadata" zero_matrix;
                 artifacts := [] |};
     variables := set_radar_data_filename word
                    (set_mode (char_code "p") variables0);
     stdin := rest' |}.

(** The state [simulate] returns in, given the state its first half ended
    in. *)
Definition scene_of (s : state) : state :=
  let w1 := pulse_compress_signal (now s) in
  let resolution := fst (calculate_compressed_pulse_resolution w1) in
  let w2 := snd (calculate_compressed_pulse_resolution w1) in
  {| now := radar_imager (insert_waveform_in_scene w2);
     log := log s
       ++ [Call_pulse_compress_signal;
           Call_calculate_compressed_pulse_resolution;
           Printf ("Compressed pulse resolution: " +:+ printf_lf resolution
                   +:+ "m" +:+ nl);
           Call_insert_waveform_in_scene;
           Call_radar_imager] |}.

(** A statement that logs no event of the kind [which], however it ends. *)
Definition quiet (which : event -> bool) {R A} (m : M R A) : Prop :=
  forall s,
    count_calls which (log (state_of (m s))) = count_calls which (log s).

End Vocabulary.


(** ** [free_memory] *)

Section Release.
Context {decl : Declarations}.

(** A call of [free], on the buffer of the node at a position of the chain
    or on that node. *)
Inductive release :=
| Free_data (p : nat)
| Free_node (p : nat).

(** The [while(ptr != NULL)] loop: the buffer goes first when there is one,
    [next] is read, then the node goes; [at_] is the position of [ptr]. *)
Fixpoint free_memory_loop (ptr : list matrix) (at_ : nat) : list release :=
  match ptr with
  | [] => []
  | m :: next =>
      (match m_data m with
       | Some _ => [Free_data at_]
       | None => []
       end)
      ++ Free_node at_ :: free_memory_loop next (S at_)
  end.

(** [None] when [ptr->next] is read through a [NULL] argument, which the
    function does before its loop tests [ptr]; else the calls of [free], in
    order. *)
Definition free_memory (data_matrix : option store) : option (list release) :=
  match data_matrix with
  | None => None
  | Some d => Some (free_memory_loop (nodes d) 0)
  end.

(** The positions whose node, and whose buffer, a sequence of calls frees. *)
Fixpoint freed_nodes (calls : list release) : list nat :=
  match calls with
  | [] => []
  | Free_node p :: calls' => p :: freed_nodes calls'
  | Free_data _ :: calls' => freed_nodes calls'
  end.

Fixpoint freed_buffers (calls : list release) : list nat :=
  match calls with
  | [] => []
  | Free_data p :: calls' => p :: freed_buffers calls'
  | Free_node _ :: calls' => freed_buffers calls'
  end.

End Release.

(** ** More stand-ins *)
Module Variants.
Section Stand_ins.
Existing Instance Demo.declarations.

(** The stages of [Demo], but for the two generators: the first names its
    node [chirp_name], the second gives its node [match_rows] rows. *)
Definition stages_making (chirp_name : string) (match_rows : Z) : Stages :=
  {| chirp_generator := Demo.produce chirp_name 4 1;
     chirp_matched_generator := Demo.produce "match" match_rows 1;
     fft_waveform := fun _ _ _ => [];
     pulse_compress_signal := Demo.produce "pulse_compressed_waveform" 7 1;
     calculate_compressed_pulse_resolution := fun w => (3%Z, w);
     insert_waveform_in_scene := Demo.produce "scene_with_waveform" 8 8;
     radar_imager := Demo.produce "radar_image" 8 8;
     cinsnowfilters := fun w => w;
     pulse_compress_image := Demo.produce "pulse_compressed_radar_image" 8 8;
     gbp := Demo.produce "gbp_image" 8 8;
     gbp_fft := Demo.produce "gbp_fft" 8 8;
     read_radar_file := Demo.read;
     write_data := fun w => (1%Z, w) |}.

(** A chain of three nodes, the last two with a buffer. *)
Definition three_nodes : store :=
  {| header := strcpy_name "metadata" zero_matrix;
     artifacts := [Demo.waveform "chirp"; Demo.waveform "match"] |}.

End Stand_ins.
End Variants.


(** ** The first half of [simulate] with the allocator left open *)

Section Allocation.
Context {decl : Declarations} {stg : Stages}.
Open Scope prog_scope.

(** [size_t] has 64 bits. *)
Definition SIZE_MAX : Z := 2 ^ 64 - 1.

(** The lines of [simulate_spectra] once more, with what the two calls of
    [malloc] return left open: [malloc_chirp_fft] stands for the call that
    sizes the buffer of "chirp_fft", [malloc_match_fft] for the one that
    sizes the buffer of "match_fft".  Either may return [NULL]; the code
    stores the result untested. *)
Definition simulate_spectra_on {R}
    (malloc_chirp_fft malloc_match_fft : Z -> option buffer) : M R unit :=
  invoke Call_chirp_generator chirp_generator ;;
  invoke Call_chirp_matched_generator chirp_matched_generator ;;

  meta_chirp <- lookup "chirp" ;;
  chirp <- load meta_chirp m_data ;;

  meta_match <- lookup "match" ;;
  match_ <- load meta_match m_data ;;

  meta_chirp_fft <- append ;;
  rows <- load meta_chirp m_rows ;;
  assign meta_chirp_fft
    (set_data (malloc_chirp_fft (rows * sizeof_complex_double)%Z)) ;;
  rows <- load meta_chirp m_rows ;;
  assign meta_chirp_fft (set_rows rows) ;;
  cols <- load meta_chirp m_cols ;;
  assign meta_chirp_fft (set_cols cols) ;;
  assign meta_chirp_fft (strcpy_name "chirp_fft") ;;

  meta_match_fft <- append ;;
  rows <- load meta_match m_rows ;;
  assign meta_match_fft
    (set_data (malloc_match_fft (rows * sizeof_complex_double)%Z)) ;;
  rows <- load meta_chirp m_rows ;;
  assign meta_match_fft (set_rows rows) ;;
  cols <- load meta_chirp m_cols ;;
  assign meta_match_fft (set_cols cols) ;;
  assign meta_match_fft (strcpy_name "match_fft") ;;

  rows <- load meta_chirp m_rows ;;
  call_fft_waveform rows chirp meta_chirp_fft ;;
  rows <- load meta_match m_rows ;;
  call_fft_waveform rows match_ meta_match_fft.

(** A request that is served: the size is one a [size_t] holds, and what
    comes back is a fresh buffer of that many bytes. *)
Definition served (bytes : Z) (result : option buffer) : Prop :=
  (0 <= bytes <= SIZE_MAX)%Z /\
  result = Some {| elems := bytes / sizeof_complex_double; samples := None |}.

(** The node linked for a spectrum: named [name], with the dimensions of
    the node found under "chirp", and with the buffer [out] once the
    transform of [source] is written to it. *)
Definition spectrum_node (name : string) (meta_chirp source : matrix)
    (out : option buffer) : matrix :=
  {| m_name := name;
     m_rows := m_rows meta_chirp;
     m_cols := m_cols meta_chirp;
     m_data := written (fft_waveform (m_rows source) (m_data source) out)
                 out |}.

End Allocation.


(** Bring a state back to a record of its parts after a statement. *)
Ltac normal_state :=
  unfold set_chain; cbn [now log chain variables stdin header artifacts].

(** * Properties

    ** The chain *)

Section Chain_facts.
Context {decl : Declarations}.

Lemma nodes_set_node p f d : nodes (set_node p f d) = alter f p (nodes d).
Proof. destruct p; reflexivity. Qed.

Lemma get_matrix_scan_bounds l k name p :
  get_matrix_scan l k name = Some p -> k <= p < k + length l.
Proof.
  revert k. induction l as [|m l IH]; intros k; simpl; [discriminate|].
  destruct (String.eqb name (m_name m)).
  - intros [= <-]. lia.
  - intros Hs. apply IH in Hs. lia.
Qed.

Lemma get_matrix_scan_Some l k name p :
  get_matrix_scan l k name = Some p ->
  exists m, l !! (p - k) = Some m /\ m_name m = name /\
    forall q m', q < p - k -> l !! q = Some m' -> m_name m' <> name.
Proof.
  revert k. induction l as [|m l IH]; intros k; simpl; [discriminate|].
  destruct (String.eqb name (m_name m)) eqn:E.
  - intros [= <-]. replace (k - k) with 0 by lia.
    exists m. apply String.eqb_eq in E. repeat split; auto. lia.
  - intros Hs. pose proof (get_matrix_scan_bounds _ _ _ _ Hs) as Hb.
    destruct (IH _ Hs) as (m0 & Hl & Hn & Hfirst).
    replace (p - k) with (S (p - S k)) by lia.
    exists m0. repeat split; auto.
    intros [|q] m' Hq Hm'; simpl in Hm'.
    + injection Hm' as <-. apply String.eqb_neq in E. congruence.
    + apply (Hfirst q); [lia | assumption].
Qed.

Lemma get_matrix_scan_None l k name :
  get_matrix_scan l k name = None <-> forall m, m ∈ l -> m_name m <> name.
Proof.
  revert k. induction l as [|m l IH]; intros k; simpl.
  - split; [intros _ m Hm; inversion Hm | reflexivity].
  - destruct (String.eqb name (m_name m)) eqn:E.
    + apply String.eqb_eq in E. split; [discriminate|].
      intros Hall. exfalso. apply (Hall m); [left | congruence].
    + apply String.eqb_neq in E. rewrite IH. split.
      * intros Hall m' Hm'. apply elem_of_cons in Hm' as [->|Hm']; [congruence|auto].
      * intros Hall m' Hm'. apply Hall. by right.
Qed.

Lemma get_last_node_walk_spec l k :
  get_last_node_walk l k = (l ++ [zero_matrix], S (k + length l)).
Proof.
  revert k. induction l as [|m l IH]; intros k; simpl.
  - f_equal. lia.
  - rewrite IH. f_equal. lia.
Qed.

Lemma get_matrix_scan_app_fresh l k name m :
  (forall m', m' ∈ l -> m_name m' <> name) ->
  m_name m = name ->
  get_matrix_scan (l ++ [m]) k name = Some (k + length l).
Proof.
  revert k. induction l as [|m0 l IH]; intros k Hfresh Hm; simpl.
  - rewrite <- Hm, String.eqb_refl. f_equal. lia.
  - destruct (String.eqb name (m_name m0)) eqn:E.
    + apply String.eqb_eq in E. exfalso. apply (Hfresh m0); [left | congruence].
    + rewrite IH; [f_equal; lia | | done].
      intros m' Hm'. apply Hfresh. by right.
Qed.

(** ** The artifact store: lookup and append *)

(** C1.  [get_matrix] scans the chain from the head: when it returns a node,
    that node carries the name asked for and no node before it does (so of
    two nodes with one name the one created first is returned); when it
    returns [NULL], the store pointer is [NULL] or no node of the chain
    carries the name. *)
Theorem get_matrix_first_match (data : option store) (name : string) :
  match get_matrix data name with
  | Some p =>
      exists d m, data = Some d /\ nodes d !! p = Some m /\ m_name m = name /\
        forall q m', q < p -> nodes d !! q = Some m' -> m_name m' <> name
  | None =>
      data = None \/
      exists d, data = Some d /\ forall m, m ∈ nodes d -> m_name m <> name
  end.
Proof.
  destruct data as [d|]; [|by left].
  unfold get_matrix.
  destruct (get_matrix_scan (nodes d) 0 name) as [p|] eqn:E.
  - destruct (get_matrix_scan_Some _ _ _ _ E) as (m & Hl & Hn & Hfirst).
    rewrite Nat.sub_0_r in Hl, Hfirst. exists d, m. auto.
  - right. exists d. split; [done|]. by apply (get_matrix_scan_None _ 0).
Qed.



Lemma get_last_node_Some (d : store) :
  get_last_node (Some d) =
  Some ({| header := header d; artifacts := artifacts d ++ [zero_matrix] |},
        length (nodes d)).
Proof.
  unfold get_last_node. rewrite get_last_node_walk_spec. reflexivity.
Qed.

(** C10.  On a non-null store [get_last_node] links exactly one node behind
    the last one and returns it.  The node is zeroed (empty name, no rows, no
    columns, no buffer) and ends the chain; every node that was there is
    still there, at its place and with its fields; the chain is one node
    longer. *)
Theorem get_last_node_appends_one (d : store) :
  exists d' p,
    get_last_node (Some d) = Some (d', p) /\
    nodes d' = nodes d ++ [zero_matrix] /\
    p = length (nodes d) /\
    nodes d' !! p = Some zero_matrix /\
    nodes d' !! S p = None /\
    (forall q m, nodes d !! q = Some m -> nodes d' !! q = Some m) /\
    length (nodes d') = S (length (nodes d)).
Proof.
  eexists _, _. split; [apply get_last_node_Some|].
  assert (Hn : nodes {| header := header d;
                        artifacts := artifacts d ++ [zero_matrix] |}
               = nodes d ++ [zero_matrix]) by reflexivity.
  rewrite Hn. repeat split.
  - rewrite lookup_app_r by lia. by rewrite Nat.sub_diag.
  - apply lookup_ge_None. rewrite length_app. simpl. lia.
  - intros q m Hq. by apply lookup_app_l_Some.
  - rewrite length_app. simpl. lia.
Qed.

(** C2.  Append a node, give it a name no node of the store carries yet, and
    look that name up: the node found is the node just appended. *)
Theorem append_then_lookup (d : store) (name : string) :
  (forall m, m ∈ nodes d -> m_name m <> name) ->
  exists d' p,
    get_last_node (Some d) = Some (d', p) /\
    get_matrix (Some (set_node p (strcpy_name name) d')) name = Some p /\
    nodes (set_node p (strcpy_name name) d') !! p
      = Some (strcpy_name name zero_matrix).
Proof.
  intros Hfresh. eexists _, _. split; [apply get_last_node_Some|].
  set (d' := {| header := header d; artifacts := artifacts d ++ [zero_matrix] |}).
  assert (Hn : nodes (set_node (length (nodes d)) (strcpy_name name) d')
               = nodes d ++ [strcpy_name name zero_matrix]).
  { rewrite nodes_set_node.
    change (nodes d') with (nodes d ++ [zero_matrix]).
    replace (length (nodes d)) with (length (nodes d) + 0) at 1 by lia.
    by rewrite alter_app_r. }
  split.
  - unfold get_matrix. rewrite Hn. apply get_matrix_scan_app_fresh; auto.
  - rewrite Hn. rewrite lookup_app_r by lia. by rewrite Nat.sub_diag.
Qed.

End Chain_facts.

(** ** Running statements *)

Section Run_facts.
Context {decl : Declarations} {stg : Stages}.
Open Scope prog_scope.

Lemma bind_Done {R A B} (m : M R A) (k : A -> M R B) s a s' :
  m s = Done a s' -> bind m k s = k a s'.
Proof. unfold bind. by intros ->. Qed.

Lemma run_printf {R B} text (k : unit -> M R B) s :
  bind (printf text) k s
  = k tt {| now := now s; log := log s ++ [Printf text] |}.
Proof. reflexivity. Qed.

Lemma run_invoke {R B} e stage (k : unit -> M R B) s :
  bind (invoke e stage) k s
  = k tt {| now := stage (now s); log := log s ++ [e] |}.
Proof. reflexivity. Qed.

Lemma run_invoke_for {R A B} e (stage : world -> A * world) (k : A -> M R B) s :
  bind (invoke_for e stage) k s
  = k (fst (stage (now s)))
      {| now := snd (stage (now s)); log := log s ++ [e] |}.
Proof. reflexivity. Qed.

Lemma run_lookup {R B} name (k : ptr -> M R B) s :
  bind (lookup name) k s = k (get_matrix (Some (chain (now s))) name) s.
Proof. reflexivity. Qed.

Lemma load_Done {R A} i (field : matrix -> A) s m :
  nodes (chain (now s)) !! i = Some m ->
  load (R := R) (Some i) field s = Done (field m) s.
Proof. unfold load. by intros ->. Qed.

Lemma run_load {R A B} i (field : matrix -> A) (k : A -> M R B) s m :
  nodes (chain (now s)) !! i = Some m ->
  bind (load (Some i) field) k s = k (field m) s.
Proof. intros Hi. apply bind_Done. by apply load_Done. Qed.

Lemma assign_Done {R} i f s m :
  nodes (chain (now s)) !! i = Some m ->
  assign (R := R) (Some i) f s
  = Done tt {| now := set_chain (set_node i f (chain (now s))) (now s);
               log := log s |}.
Proof. unfold assign. by intros ->. Qed.

Lemma run_assign {R B} i f (k : unit -> M R B) s m :
  nodes (chain (now s)) !! i = Some m ->
  bind (assign (Some i) f) k s
  = k tt {| now := set_chain (set_node i f (chain (now s))) (now s);
            log := log s |}.
Proof. intros Hi. apply bind_Done. by eapply assign_Done. Qed.

Lemma run_append {R B} (k : ptr -> M R B) s :
  bind append k s
  = k (Some (S (length (artifacts (chain (now s))))))
      {| now := set_chain
                  {| header := header (chain (now s));
                     artifacts := artifacts (chain (now s)) ++ [zero_matrix] |}
                  (now s);
         log := log s |}.
Proof. unfold bind, append. by rewrite get_last_node_Some. Qed.

(** Nodes of a chain that has grown at its end. *)

Lemma lookup_nodes_old h (A B : list matrix) i m :
  nodes {| header := h; artifacts := A |} !! i = Some m ->
  nodes {| header := h; artifacts := A ++ B |} !! i = Some m.
Proof.
  intros Hi. change (((h :: A) ++ B) !! i = Some m).
  by apply lookup_app_l_Some.
Qed.

Lemma lookup_nodes_first_new h (A B : list matrix) x :
  nodes {| header := h; artifacts := A ++ x :: B |} !! S (length A) = Some x.
Proof. unfold nodes. simpl. by rewrite list_lookup_middle. Qed.

Lemma lookup_nodes_second_new h (A B : list matrix) x y :
  nodes {| header := h; artifacts := A ++ x :: y :: B |} !! S (S (length A))
  = Some y.
Proof.
  unfold nodes. simpl. rewrite (cons_middle x A), app_assoc.
  apply list_lookup_middle. rewrite length_app. simpl. lia.
Qed.

Lemma set_node_first_new h (A B : list matrix) x f :
  set_node (S (length A)) f {| header := h; artifacts := A ++ x :: B |}
  = {| header := h; artifacts := A ++ f x :: B |}.
Proof.
  unfold set_node. simpl. f_equal.
  replace (length A) with (length A + 0) at 1 by lia.
  by rewrite alter_app_r.
Qed.

Lemma set_node_second_new h (A B : list matrix) x y f :
  set_node (S (S (length A))) f {| header := h; artifacts := A ++ x :: y :: B |}
  = {| header := h; artifacts := A ++ x :: f y :: B |}.
Proof.
  unfold set_node. simpl. f_equal.
  replace (S (length A)) with (length A + 1) by lia.
  by rewrite alter_app_r.
Qed.

Lemma get_matrix_valid (d : store) name i :
  get_matrix (Some d) name = Some i ->
  exists m, nodes d !! i = Some m /\ m_name m = name.
Proof.
  unfold get_matrix. intros Hs.
  destruct (get_matrix_scan_Some _ _ _ _ Hs) as (m & Hl & Hn & _).
  rewrite Nat.sub_0_r in Hl. eauto.
Qed.

End Run_facts.

(** ** The yes/no prompts *)

Section Prompt_facts.
Context {decl : Declarations} {stg : Stages}.
Open Scope prog_scope.

Lemma is_answer_cases c : is_answer c = true -> c = "y"%char \/ c = "n"%char.
Proof.
  unfold is_answer. intros Hc. apply orb_prop in Hc as [Hc|Hc];
    apply Ascii.eqb_eq in Hc; auto.
Qed.

Lemma not_answer_cases c :
  is_answer c = false -> Ascii.eqb c "y" = false /\ Ascii.eqb c "n" = false.
Proof. unfold is_answer. intros Hc. by apply orb_false_elim in Hc. Qed.

(** The loop reads up to the first ['y'] or ['n'] and stops there. *)
Lemma do_while_yes_no_answered {R} fuel pc pre a rest s :
  no_answer pre = true ->
  is_answer a = true ->
  String.length pre < fuel ->
  stdin (now s) = pre +:+ String a rest ->
  do_while_yes_no (R := R) fuel pc s
  = Done a {| now := set_stdin rest (now s); log := log s |}.
Proof.
  revert fuel pc s. induction pre as [|c pre IH]; intros fuel pc s Hpre Ha Hfuel Hin.
  - destruct fuel as [|fuel]; [simpl in Hfuel; lia|].
    simpl in Hin. simpl. unfold bind, scanf_char. rewrite Hin. simpl.
    destruct (is_answer_cases _ Ha) as [-> | ->]; reflexivity.
  - destruct fuel as [|fuel]; [simpl in Hfuel; lia|].
    simpl in Hin, Hpre, Hfuel. apply andb_prop in Hpre as [Hc Hpre].
    apply negb_true_iff in Hc. apply not_answer_cases in Hc as [Hy Hn].
    simpl. unfold bind at 1. unfold scanf_char. rewrite Hin. simpl.
    rewrite Hy, Hn.
    rewrite (IH fuel c _ Hpre Ha); [reflexivity | lia | reflexivity].
Qed.

(** The loop is left with ['y'] or ['n'] in [pc] and in no other way. *)
Lemma do_while_yes_no_exit {R} fuel pc s (r : ascii) s' :
  do_while_yes_no (R := R) fuel pc s = Done r s' -> is_answer r = true.
Proof.
  revert pc s. induction fuel as [|fuel IH]; intros pc s; simpl; [discriminate|].
  unfold bind, scanf_char.
  destruct (stdin (now s)) as [|c rest]; simpl.
  - destruct (Ascii.eqb pc "y") eqn:Hy.
    + intros [= <- _]. unfold is_answer. by rewrite Hy.
    + destruct (Ascii.eqb pc "n") eqn:Hn.
      * intros [= <- _]. unfold is_answer. by rewrite Hy, Hn.
      * apply IH.
  - destruct (Ascii.eqb c "y") eqn:Hy.
    + intros [= <- _]. unfold is_answer. by rewrite Hy.
    + destruct (Ascii.eqb c "n") eqn:Hn.
      * intros [= <- _]. unfold is_answer. by rewrite Hy, Hn.
      * apply IH.
Qed.

(** At end of input [scanf] leaves [pc] alone: the loop goes round for ever
    unless [pc] held an answer already. *)
Lemma do_while_yes_no_eof {R} fuel pc s :
  stdin (now s) = EmptyString ->
  is_answer pc = false ->
  do_while_yes_no (R := R) fuel pc s = Spin s.
Proof.
  intros Hin Hpc. apply not_answer_cases in Hpc as [Hy Hn].
  induction fuel as [|fuel IH]; simpl; [reflexivity|].
  unfold bind, scanf_char. rewrite Hin. simpl. by rewrite Hy, Hn.
Qed.

Lemma do_while_yes_no_stale {R} fuel pc s :
  stdin (now s) = EmptyString ->
  is_answer pc = true ->
  do_while_yes_no (R := R) (S fuel) pc s = Done pc s.
Proof.
  intros Hin Hpc. simpl. unfold bind, scanf_char. rewrite Hin. simpl.
  destruct (is_answer_cases _ Hpc) as [-> | ->]; reflexivity.
Qed.

End Prompt_facts.

(** ** [process_data] *)

Section Process_facts.
Context {decl : Declarations} {stg : Stages}.
Open Scope prog_scope.

Lemma count_calls_app which l1 l2 :
  count_calls which (l1 ++ l2) = count_calls which l1 + count_calls which l2.
Proof. induction l1 as [|e l1 IH]; simpl; [done|]. rewrite IH. lia. Qed.

(** The two gated blocks. *)
Lemma run_cinsnow_gate {B} a (k : unit -> M unit B) s :
  bind (if Ascii.eqb a "y"
        then printf "Running CinSnow filters ... " ;;
             invoke Call_cinsnowfilters cinsnowfilters ;;
             printf ("done." +:+ nl)
        else ret tt) k s
  = k tt {| now := cinsnow_world a (now s); log := log s ++ cinsnow_log a |}.
Proof.
  destruct s as [w0 l0]. unfold cinsnow_world, cinsnow_log.
  destruct (Ascii.eqb a "y").
  - unfold bind, printf, note, invoke. cbn [now log]. by rewrite <- !app_assoc.
  - unfold bind, ret. cbn [now log]. by rewrite app_nil_r.
Qed.

Lemma run_compress_gate {B} a (k : unit -> M unit B) s :
  bind (if Ascii.eqb a "y"
        then printf "Pulse-compressing image ... " ;;
             invoke Call_pulse_compress_image pulse_compress_image ;;
             printf ("done." +:+ nl)
        else ret tt) k s
  = k tt {| now := compress_world a (now s); log := log s ++ compress_log a |}.
Proof.
  destruct s as [w0 l0]. unfold compress_world, compress_log.
  destruct (Ascii.eqb a "y").
  - unfold bind, printf, note, invoke. cbn [now log]. by rewrite <- !app_assoc.
  - unfold bind, ret. cbn [now log]. by rewrite app_nil_r.
Qed.

(** Both prompts answered: what [process_data] logs and leaves behind. *)
Lemma process_data_answered fuel s pre1 a1 rest1 pre2 a2 rest2 :
  no_answer pre1 = true -> is_answer a1 = true -> String.length pre1 < fuel ->
  stdin (now s) = pre1 +:+ String a1 rest1 ->
  no_answer pre2 = true -> is_answer a2 = true -> String.length pre2 < fuel ->
  stdin (cinsnow_world a1 (set_stdin rest1 (now s))) = pre2 +:+ String a2 rest2 ->
  process_data fuel s
  = Done tt
      {| now := gbp_fft (gbp (compress_world a2 (set_stdin rest2
                  (cinsnow_world a1 (set_stdin rest1 (now s))))));
         log := log s
           ++ [Printf "Do you want to employ CinSnow filtering to radar image (y/n)? "]
           ++ cinsnow_log a1
           ++ [Printf "Do you want to enable pulse compression (y/n)? "]
           ++ compress_log a2
           ++ [Call_gbp; Printf "Generating 2D FFT of GBP image ... ";
               Call_gbp_fft; Printf ("done." +:+ nl)] |}.
Proof.
  intros Hpre1 Ha1 Hf1 Hin1 Hpre2 Ha2 Hf2 Hin2.
  unfold process_data. rewrite run_printf.
  erewrite bind_Done
    by (eapply (do_while_yes_no_answered fuel zero pre1 a1 rest1); eauto).
  cbn [now log].
  rewrite run_cinsnow_gate. cbn [now log]. rewrite run_printf. cbn [now log].
  erewrite bind_Done
    by (eapply (do_while_yes_no_answered fuel a1 pre2 a2 rest2); eauto).
  cbn [now log]. rewrite run_compress_gate. cbn [now log].
  rewrite run_invoke, run_printf, run_invoke. cbn [now log].
  unfold printf, note. cbn [now log]. by rewrite <- !app_assoc.
Qed.

(** C5.  A yes/no prompt reads on to the first ['y'] or ['n'] of its input
    and stops there, whatever else comes first; the stage behind the prompt
    ([cinsnowfilters], then [pulse_compress_image]) is called once when that
    character is ['y'] and not at all when it is ['n'].  The loop is never
    left with another character in [pc]. *)
Theorem yes_no_prompts_gate_once fuel s pre1 a1 rest1 pre2 a2 rest2 :
  no_answer pre1 = true -> is_answer a1 = true -> String.length pre1 < fuel ->
  stdin (now s) = pre1 +:+ String a1 rest1 ->
  no_answer pre2 = true -> is_answer a2 = true -> String.length pre2 < fuel ->
  stdin (cinsnow_world a1 (set_stdin rest1 (now s))) = pre2 +:+ String a2 rest2 ->
  (exists s' added,
     process_data fuel s = Done tt s' /\
     log s' = log s ++ added /\
     added
       = [Printf "Do you want to employ CinSnow filtering to radar image (y/n)? "]
         ++ cinsnow_log a1
         ++ [Printf "Do you want to enable pulse compression (y/n)? "]
         ++ compress_log a2
         ++ [Call_gbp; Printf "Generating 2D FFT of GBP image ... ";
             Call_gbp_fft; Printf ("done." +:+ nl)] /\
     now s' = gbp_fft (gbp (compress_world a2 (set_stdin rest2
                (cinsnow_world a1 (set_stdin rest1 (now s)))))) /\
     count_calls is_cinsnowfilters added
       = (if Ascii.eqb a1 "y" then 1 else 0) /\
     count_calls is_pulse_compress_image added
       = (if Ascii.eqb a2 "y" then 1 else 0)) /\
  (forall R fuel' pc s0 r s1,
     do_while_yes_no (R := R) fuel' pc s0 = Done r s1 ->
     r = "y"%char \/ r = "n"%char).
Proof.
  intros Hpre1 Ha1 Hf1 Hin1 Hpre2 Ha2 Hf2 Hin2. split.
  - pose proof (process_data_answered fuel s _ _ _ _ _ _
                  Hpre1 Ha1 Hf1 Hin1 Hpre2 Ha2 Hf2 Hin2) as Hrun.
    eexists _, _. split; [exact Hrun|].
    cbn [log now]. split; [reflexivity|]. split; [reflexivity|].
    split; [reflexivity|].
    unfold cinsnow_log, compress_log.
    destruct (is_answer_cases _ Ha1) as [-> | ->];
      destruct (is_answer_cases _ Ha2) as [-> | ->]; split; reflexivity.
  - intros R fuel' pc s0 r s1 Hrun.
    apply is_answer_cases. by eapply do_while_yes_no_exit.
Qed.

End Process_facts.

(** ** [simulate] *)

Section Simulate_facts.
Context {decl : Declarations} {stg : Stages}.
Open Scope prog_scope.

Lemma call_fft_waveform_Done {R} n input p s m :
  nodes (chain (now s)) !! p = Some m ->
  call_fft_waveform (R := R) n input (Some p) s
  = Done tt
      {| now := set_chain
                  (set_node p
                     (set_data (written (fft_waveform n input (m_data m))
                                  (m_data m)))
                     (chain (now s)))
                  (now s);
         log := log s ++ [Call_fft_waveform n input (m_data m)] |}.
Proof.
  intros Hp. unfold call_fft_waveform.
  rewrite (run_load p _ _ _ m) by exact Hp.
  unfold bind, note. cbn [now log].
  by rewrite (assign_Done _ _ _ m).
Qed.

(** With "chirp" and "match" in the chain the generators leave, the first
    half of [simulate] runs through: two nodes are linked behind the chain
    and the transform is called on each waveform. *)
Lemma simulate_spectra_runs {R} s i j :
  let w := chirp_matched_generator (chirp_generator (now s)) in
  get_matrix (Some (chain w)) "chirp" = Some i ->
  get_matrix (Some (chain w)) "match" = Some j ->
  exists meta_chirp meta_match,
    nodes (chain w) !! i = Some meta_chirp /\ m_name meta_chirp = "chirp" /\
    nodes (chain w) !! j = Some meta_match /\ m_name meta_match = "match" /\
    simulate_spectra (R := R) s
    = Done tt
        {| now := set_chain
                    {| header := header (chain w);
                       artifacts := artifacts (chain w)
                         ++ [chirp_fft_node meta_chirp;
                             match_fft_node meta_chirp meta_match] |}
                    w;
           log := log s
             ++ [Call_chirp_generator; Call_chirp_matched_generator;
                 Call_fft_waveform (m_rows meta_chirp) (m_data meta_chirp)
                   (malloc (m_rows meta_chirp * sizeof_complex_double));
                 Call_fft_waveform (m_rows meta_match) (m_data meta_match)
                   (malloc (m_rows meta_match * sizeof_complex_double))] |}.
Proof.
  intros w Hi Hj.
  destruct (get_matrix_valid _ _ _ Hi) as (mc & Hmc & Hnc).
  destruct (get_matrix_valid _ _ _ Hj) as (mm & Hmm & Hnm).
  exists mc, mm. repeat (split; [assumption|]).
  unfold simulate_spectra.
  rewrite !run_invoke. cbn [now log]. fold w.
  clearbody w. destruct w as [[h A] v input]. cbn [chain] in *.
  rewrite run_lookup. cbn [now chain]. rewrite Hi.
  rewrite (run_load i _ _ _ mc) by exact Hmc.
  rewrite run_lookup. cbn [now chain]. rewrite Hj.
  rewrite (run_load j _ _ _ mm) by exact Hmm.
  (* the node for the spectrum of "chirp" *)
  rewrite run_append. normal_state.
  rewrite (run_load i _ _ _ mc) by (by apply lookup_nodes_old).
  rewrite (run_assign _ _ _ _ zero_matrix) by apply lookup_nodes_first_new.
  normal_state. rewrite set_node_first_new.
  rewrite (run_load i _ _ _ mc) by (by apply lookup_nodes_old).
  rewrite (run_assign _ _ _ _ _) by apply lookup_nodes_first_new.
  normal_state. rewrite set_node_first_new.
  rewrite (run_load i _ _ _ mc) by (by apply lookup_nodes_old).
  rewrite (run_assign _ _ _ _ _) by apply lookup_nodes_first_new.
  normal_state. rewrite set_node_first_new.
  rewrite (run_assign _ _ _ _ _) by apply lookup_nodes_first_new.
  normal_state. rewrite set_node_first_new.
  (* the node for the spectrum of "match" *)
  rewrite run_append. normal_state.
  rewrite length_app, Nat.add_1_r, <- app_assoc. cbn [app length].
  rewrite (run_load j _ _ _ mm) by (by apply lookup_nodes_old).
  rewrite (run_assign _ _ _ _ _) by apply lookup_nodes_second_new.
  normal_state. rewrite set_node_second_new.
  rewrite (run_load i _ _ _ mc) by (by apply lookup_nodes_old).
  rewrite (run_assign _ _ _ _ _) by apply lookup_nodes_second_new.
  normal_state. rewrite set_node_second_new.
  rewrite (run_load i _ _ _ mc) by (by apply lookup_nodes_old).
  rewrite (run_assign _ _ _ _ _) by apply lookup_nodes_second_new.
  normal_state. rewrite set_node_second_new.
  rewrite (run_assign _ _ _ _ _) by apply lookup_nodes_second_new.
  normal_state. rewrite set_node_second_new.
  (* the two transforms *)
  rewrite (run_load i _ _ _ mc) by (by apply lookup_nodes_old).
  erewrite bind_Done
    by (eapply call_fft_waveform_Done; apply lookup_nodes_first_new).
  normal_state. rewrite set_node_first_new.
  rewrite (run_load j _ _ _ mm) by (by apply lookup_nodes_old).
  erewrite call_fft_waveform_Done by apply lookup_nodes_second_new.
  normal_state. rewrite set_node_second_new.
  rewrite <- !app_assoc. reflexivity.
Qed.

(** Without "chirp" or without "match" the first half of [simulate]
    dereferences [NULL]. *)
Lemma simulate_spectra_needs_chirp {R} s :
  let w := chirp_matched_generator (chirp_generator (now s)) in
  get_matrix (Some (chain w)) "chirp" = None ->
  exists s', simulate_spectra (R := R) s = Fault s'.
Proof.
  intros w Hi. unfold simulate_spectra.
  rewrite !run_invoke. cbn [now log]. fold w.
  rewrite run_lookup. cbn [now]. rewrite Hi.
  unfold bind, load. eauto.
Qed.

Lemma simulate_spectra_needs_match {R} s i :
  let w := chirp_matched_generator (chirp_generator (now s)) in
  get_matrix (Some (chain w)) "chirp" = Some i ->
  get_matrix (Some (chain w)) "match" = None ->
  exists s', simulate_spectra (R := R) s = Fault s'.
Proof.
  intros w Hi Hj.
  destruct (get_matrix_valid _ _ _ Hi) as (mc & Hmc & Hnc).
  unfold simulate_spectra.
  rewrite !run_invoke. cbn [now log]. fold w.
  rewrite run_lookup. cbn [now]. rewrite Hi.
  rewrite (run_load i _ _ _ mc) by exact Hmc.
  rewrite run_lookup. cbn [now]. rewrite Hj.
  unfold bind, load. eauto.
Qed.

Lemma simulate_scene_Done {R} s :
  simulate_scene (R := R) s = Done tt (scene_of s).
Proof.
  unfold simulate_scene, scene_of.
  rewrite run_invoke, run_invoke_for, run_printf, run_invoke.
  unfold invoke. cbn [now log]. by rewrite <- !app_assoc.
Qed.

(** A call of [simulate] that comes back has returned [0], found "chirp" and
    "match", and logged the nine calls of the simulate flow in their order. *)
Lemma simulate_returns_inv {R} s (r : Z) s1 :
  call (R := R) simulate s = Done r s1 ->
  let w := chirp_matched_generator (chirp_generator (now s)) in
  exists i j meta_chirp meta_match resolution,
    r = 0%Z /\
    get_matrix (Some (chain w)) "chirp" = Some i /\
    nodes (chain w) !! i = Some meta_chirp /\
    get_matrix (Some (chain w)) "match" = Some j /\
    nodes (chain w) !! j = Some meta_match /\
    log s1
    = log s
      ++ [Call_chirp_generator; Call_chirp_matched_generator;
          Call_fft_waveform (m_rows meta_chirp) (m_data meta_chirp)
            (malloc (m_rows meta_chirp * sizeof_complex_double));
          Call_fft_waveform (m_rows meta_match) (m_data meta_match)
            (malloc (m_rows meta_match * sizeof_complex_double));
          Call_pulse_compress_signal;
          Call_calculate_compressed_pulse_resolution;
          Printf ("Compressed pulse resolution: " +:+ printf_lf resolution
                  +:+ "m" +:+ nl);
          Call_insert_waveform_in_scene;
          Call_radar_imager].
Proof.
  intros Hrun w.
  destruct (get_matrix (Some (chain w)) "chirp") as [i|] eqn:Hi.
  2: { destruct (simulate_spectra_needs_chirp (R := Z) s Hi) as [s' Hf].
       unfold call, simulate, bind in Hrun. by rewrite Hf in Hrun. }
  destruct (get_matrix (Some (chain w)) "match") as [j|] eqn:Hj.
  2: { destruct (simulate_spectra_needs_match (R := Z) s i Hi Hj) as [s' Hf].
       unfold call, simulate, bind in Hrun. by rewrite Hf in Hrun. }
  destruct (simulate_spectra_runs (R := Z) s i j Hi Hj)
    as (mc & mm & Hmc & _ & Hmm & _ & Hsp).
  unfold call, simulate in Hrun.
  rewrite (bind_Done _ _ _ _ _ Hsp) in Hrun.
  rewrite (bind_Done _ _ _ _ _ (simulate_scene_Done _)) in Hrun.
  unfold return_ in Hrun. injection Hrun as <- <-.
  eexists i, j, mc, mm, _. repeat (split; [reflexivity || assumption|]).
  unfold scene_of. cbn [log]. by rewrite <- !app_assoc.
Qed.

End Simulate_facts.

(** ** [build_metadata] and the end of [main] *)

Section Main_facts.
Context {decl : Declarations} {stg : Stages}.
Open Scope prog_scope.

(** The counter counts the nodes modulo [UINT_MAX + 1]. *)
Lemma build_metadata_count_mod (l : list matrix) (elements : Z) :
  (0 <= elements <= UINT_MAX)%Z ->
  build_metadata_count l elements = uint (elements + Z.of_nat (length l)).
Proof.
  revert elements. induction l as [|m l IH]; intros e He; simpl.
  - unfold uint. rewrite Z.add_0_r, Z.mod_small; unfold UINT_MAX in *; lia.
  - rewrite IH.
    + unfold uint. rewrite Zplus_mod_idemp_l. f_equal. lia.
    + unfold uint, UINT_MAX.
      pose proof (Z.mod_pos_bound (e + 1) (2 ^ 32 - 1 + 1)). lia.
Qed.

Lemma build_metadata_count_spec (l : list matrix) (elements : Z) :
  (0 <= elements)%Z ->
  (elements + Z.of_nat (length l) <= UINT_MAX)%Z ->
  build_metadata_count l elements = (elements + Z.of_nat (length l))%Z.
Proof.
  intros He Hmax. rewrite build_metadata_count_mod by lia.
  unfold uint. apply Z.mod_small. unfold UINT_MAX in *. lia.
Qed.

Lemma build_metadata_Done {R} s :
  call (R := R) build_metadata s
  = Done tt
      {| now := set_chain
                  {| header :=
                       set_data
                         (malloc (build_metadata_count
                                    (artifacts (chain (now s))) 0
                                  * sizeof_complex_double))
                         (header (chain (now s)));
                     artifacts := artifacts (chain (now s)) |}
                  (now s);
         log := log s |}.
Proof. reflexivity. Qed.

Lemma main_finish_Returning s :
  main_finish s
  = Returning 0%Z
      {| now := snd (write_data
                  (set_chain
                     {| header :=
                          set_data
                            (malloc (build_metadata_count
                                       (artifacts (chain (now s))) 0
                                     * sizeof_complex_double))
                            (header (chain (now s)));
                        artifacts := artifacts (chain (now s)) |}
                     (now s)));
         log := log s ++ [Call_write_data] |}.
Proof. reflexivity. Qed.

(** Control that falls out of the [if]/[else if]/[else] reaches
    [build_metadata] and [write_data]; a [return] inside it ends [main]. *)
Lemma main_falls_through fuel variables0 input s1 :
  main_flow fuel (boot variables0 input) = Done tt s1 ->
  main fuel variables0 input
  = Done 0%Z
      {| now := snd (write_data
                  (set_chain
                     {| header :=
                          set_data
                            (malloc (build_metadata_count
                                       (artifacts (chain (now s1))) 0
                                     * sizeof_complex_double))
                            (header (chain (now s1)));
                        artifacts := artifacts (chain (now s1)) |}
                     (now s1)));
         log := log s1 ++ [Call_write_data] |}.
Proof.
  intros Hflow. unfold main, call.
  rewrite (bind_Done _ _ _ _ _ Hflow). by rewrite main_finish_Returning.
Qed.

Lemma main_returns_early fuel variables0 input (r : Z) s1 :
  main_flow fuel (boot variables0 input) = Returning r s1 ->
  main fuel variables0 input = Done r s1.
Proof. intros Hflow. unfold main, call, bind. by rewrite Hflow. Qed.

Lemma main_spins fuel variables0 input s1 :
  main_flow fuel (boot variables0 input) = Spin s1 ->
  main fuel variables0 input = Spin s1.
Proof. intros Hflow. unfold main, call, bind. by rewrite Hflow. Qed.

(** The three ways out of the mode prompt. *)

Lemma main_flow_simulate fuel variables0 rest :
  main_flow fuel (boot variables0 (String "s" rest))
  = (ret_ <- call simulate ;;
     (if Z.eqb ret_ (-1) then return_ 0%Z else ret tt) ;;
     call (process_data fuel)) (mode_read variables0 "s" rest).
Proof. reflexivity. Qed.

Lemma main_flow_process fuel variables0 rest :
  main_flow fuel (boot variables0 (String "p" rest))
  = (printf "Please enter file name of raw data: " ;;
     ret_ <- scanf_radar_data_filename ;;
     (if Z.eqb ret_ EOF then
        printf ("Invalid input detected, closing." +:+ nl) ;;
        return_ 0%Z
      else ret tt) ;;
     ok <- invoke_for Call_read_radar_file read_radar_file ;;
     (if Z.eqb ok 0 then
        printf ("Failed to read radar data, closing." +:+ nl) ;;
        return_ 0%Z
      else ret tt) ;;
     call (process_data fuel)) (mode_read variables0 "p" rest).
Proof. reflexivity. Qed.

Lemma main_flow_process_reads fuel variables0 rest :
  skip_space rest <> EmptyString ->
  main_flow fuel (boot variables0 (String "p" rest))
  = ((if Z.eqb (fst (read_radar_file (reader_world variables0 rest))) 0 then
        printf ("Failed to read radar data, closing." +:+ nl) ;;
        return_ 0%Z
      else ret tt) ;;
     call (process_data fuel))
      {| now := snd (read_radar_file (reader_world variables0 rest));
         log := [Printf "Do you wish to simulate or process radar data? (s/p): ";
                 Printf "Please enter file name of raw data: ";
                 Call_read_radar_file] |}.
Proof.
  intros Hword. rewrite main_flow_process, run_printf.
  unfold bind at 1. unfold scanf_radar_data_filename, reader_world.
  cbn [now log stdin mode_read].
  destruct (skip_space rest) as [|c0 rest0]; [done|].
  destruct (read_word (String c0 rest0)) as [word rest'].
  cbn [Z.eqb EOF]. unfold bind at 1. unfold ret at 1.
  rewrite run_invoke_for. reflexivity.
Qed.

Lemma main_flow_process_end_of_input fuel variables0 rest :
  skip_space rest = EmptyString ->
  main_flow fuel (boot variables0 (String "p" rest))
  = Returning 0%Z
      {| now := set_stdin EmptyString (now (mode_read variables0 "p" rest));
         log := [Printf "Do you wish to simulate or process radar data? (s/p): ";
                 Printf "Please enter file name of raw data: ";
                 Printf ("Invalid input detected, closing." +:+ nl)] |}.
Proof.
  intros Hskip. rewrite main_flow_process, run_printf.
  unfold bind at 1. unfold scanf_radar_data_filename.
  cbn [now log stdin mode_read]. by rewrite Hskip.
Qed.

Lemma char_code_inj c1 c2 : char_code c1 = char_code c2 -> c1 = c2.
Proof.
  unfold char_code. intros Hc. apply Nat2Z.inj in Hc.
  rewrite <- (ascii_nat_embedding c1), <- (ascii_nat_embedding c2).
  by rewrite Hc.
Qed.

Lemma main_flow_other_mode fuel variables0 c rest :
  c <> "s"%char -> c <> "p"%char ->
  main_flow fuel (boot variables0 (String c rest))
  = Returning 0%Z
      {| now := now (mode_read variables0 c rest);
         log := log (mode_read variables0 c rest)
                ++ [Printf ("Mode not recognized - exiting." +:+ nl)] |}.
Proof.
  intros Hs Hp.
  assert (Hp' : Z.eqb (char_code c) (char_code "p") = false).
  { apply Z.eqb_neq. intros Hc. by apply char_code_inj in Hc. }
  assert (Hs' : Z.eqb (char_code c) (char_code "s") = false).
  { apply Z.eqb_neq. intros Hc. by apply char_code_inj in Hc. }
  unfold main_flow. rewrite run_printf.
  unfold bind, getchar, write, read, boot.
  cbn [now log stdin variables set_variables mode set_mode].
  by rewrite Hp', Hs'.
Qed.

Lemma main_flow_end_of_input fuel variables0 :
  main_flow fuel (boot variables0 EmptyString)
  = Returning 0%Z
      {| now := set_variables (set_mode EOF variables0)
                  (now (boot variables0 EmptyString));
         log := [Printf "Do you wish to simulate or process radar data? (s/p): ";
                 Printf ("Mode not recognized - exiting." +:+ nl)] |}.
Proof. reflexivity. Qed.

End Main_facts.

(** ** What a statement does not log *)

Section Quiet_facts.
Context {decl : Declarations} {stg : Stages}.
Open Scope prog_scope.
Variable which : event -> bool.

Lemma count_calls_snoc l e :
  which e = false -> count_calls which (l ++ [e]) = count_calls which l.
Proof. intros He. rewrite count_calls_app. simpl. rewrite He. lia. Qed.

Lemma quiet_bind {R A B} (m : M R A) (k : A -> M R B) :
  quiet which m -> (forall a, quiet which (k a)) -> quiet which (bind m k).
Proof.
  intros Hm Hk s. specialize (Hm s). unfold bind.
  destruct (m s) as [a s'|r s'|s'|s']; simpl in *; [|done..].
  by rewrite Hk.
Qed.

Lemma quiet_ret {R A} (a : A) : quiet which (ret (R := R) a).
Proof. by intros s. Qed.

Lemma quiet_return {R A} (r : R) : quiet which (return_ (A := A) r).
Proof. by intros s. Qed.

Lemma quiet_note {R} e : which e = false -> quiet which (note (R := R) e).
Proof. intros He s. simpl. by apply count_calls_snoc. Qed.

Lemma quiet_printf {R} text :
  which (Printf text) = false -> quiet which (printf (R := R) text).
Proof. apply quiet_note. Qed.

Lemma quiet_read {R A} (field : radar_variables -> A) :
  quiet which (read (R := R) field).
Proof. by intros s. Qed.

Lemma quiet_write {R} f : quiet which (write (R := R) f).
Proof. by intros s. Qed.

Lemma quiet_invoke {R} e stage :
  which e = false -> quiet which (invoke (R := R) e stage).
Proof. intros He s. simpl. by apply count_calls_snoc. Qed.

Lemma quiet_invoke_for {R A} e (stage : world -> A * world) :
  which e = false -> quiet which (invoke_for (R := R) e stage).
Proof. intros He s. simpl. by apply count_calls_snoc. Qed.

Lemma quiet_lookup {R} name : quiet which (lookup (R := R) name).
Proof. by intros s. Qed.

Lemma quiet_append {R} : quiet which (append (R := R)).
Proof. intros s. unfold append. by rewrite get_last_node_Some. Qed.

Lemma quiet_load {R A} p (field : matrix -> A) :
  quiet which (load (R := R) p field).
Proof.
  intros s. unfold load. destruct p as [i|]; [|done].
  by destruct (nodes (chain (now s)) !! i).
Qed.

Lemma quiet_assign {R} p f : quiet which (assign (R := R) p f).
Proof.
  intros s. unfold assign. destruct p as [i|]; [|done].
  by destruct (nodes (chain (now s)) !! i).
Qed.

Lemma quiet_getchar {R} : quiet which (getchar (R := R)).
Proof. intros s. unfold getchar. by destruct (stdin (now s)). Qed.

Lemma quiet_scanf_radar_data_filename {R} :
  quiet which (scanf_radar_data_filename (R := R)).
Proof.
  intros s. unfold scanf_radar_data_filename.
  destruct (skip_space (stdin (now s))) as [|c rest]; [done|].
  by destruct (read_word (String c rest)).
Qed.

Lemma quiet_scanf_char {R} pc : quiet which (scanf_char (R := R) pc).
Proof. intros s. unfold scanf_char. by destruct (stdin (now s)). Qed.

Lemma quiet_call {R A} (body : M A A) :
  quiet which body -> quiet which (call (R := R) body).
Proof.
  intros Hb s. specialize (Hb s). unfold call.
  by destruct (body s).
Qed.

Lemma quiet_do_while_yes_no {R} fuel pc :
  quiet which (do_while_yes_no (R := R) fuel pc).
Proof.
  revert pc. induction fuel as [|fuel IH]; intros pc; simpl; [by intros s|].
  apply quiet_bind; [apply quiet_scanf_char|]. intros r.
  destruct (Ascii.eqb (snd r) "y"); [apply quiet_ret|].
  destruct (Ascii.eqb (snd r) "n"); [apply quiet_ret|]. apply IH.
Qed.

End Quiet_facts.

Ltac quiet_step :=
  first
    [ apply quiet_ret | apply quiet_return
    | apply quiet_printf; reflexivity
    | apply quiet_note; reflexivity
    | apply quiet_read | apply quiet_write
    | apply quiet_invoke; reflexivity
    | apply quiet_invoke_for; reflexivity
    | apply quiet_lookup | apply quiet_append
    | apply quiet_load | apply quiet_assign
    | apply quiet_getchar | apply quiet_scanf_radar_data_filename
    | apply quiet_do_while_yes_no
    | apply quiet_bind; [|intro]
    | match goal with
      | |- quiet _ (if ?b then _ else _) => destruct b
      end ].

Section No_write_facts.
Context {decl : Declarations} {stg : Stages}.
Open Scope prog_scope.

Lemma simulate_writes_nothing : quiet is_write_data simulate.
Proof.
  unfold simulate, simulate_spectra, simulate_scene, call_fft_waveform.
  repeat quiet_step.
Qed.

Lemma process_data_writes_nothing fuel : quiet is_write_data (process_data fuel).
Proof. unfold process_data. repeat quiet_step. Qed.

Lemma main_flow_writes_nothing fuel : quiet is_write_data (main_flow fuel).
Proof.
  unfold main_flow. repeat quiet_step.
  all: apply quiet_call;
    [apply process_data_writes_nothing || apply simulate_writes_nothing].
Qed.

End No_write_facts.

(** ** Runs of [main] *)

Section Runs.
Context {decl : Declarations} {stg : Stages}.
Open Scope prog_scope.

(** C3.  A mode character other than ['s'] and ['p'] ends the run at once:
    the program prints that the mode is not recognized and returns; no stage
    has been called, the chain is the header alone, named "metadata" and
    without a summary buffer, and nothing was written. *)
Theorem unknown_mode_aborts fuel variables0 (c : ascii) rest :
  c <> "s"%char -> c <> "p"%char ->
  exists final,
    main fuel variables0 (String c rest) = Done 0%Z final /\
    nodes (chain (now final)) = [strcpy_name "metadata" zero_matrix] /\
    log final
    = [Printf "Do you wish to simulate or process radar data? (s/p): ";
       Printf ("Mode not recognized - exiting." +:+ nl)] /\
    count_calls is_call (log final) = 0 /\
    count_calls is_write_data (log final) = 0.
Proof.
  intros Hs Hp. eexists. split.
  - apply main_returns_early. by apply main_flow_other_mode.
  - repeat split; reflexivity.
Qed.

(** C4.  When control falls out of the mode branches (the run was a simulate
    run, or a process run whose file the reader has read: every other run has
    returned by then), [build_metadata] hangs on the header a buffer with one
    slot for each node behind the header, as many as an [unsigned int]
    counts; [write_data] is called on the chain so prepared, and that call,
    the only one of the run, is the last thing logged before [main]
    returns. *)
Theorem summary_then_write_once fuel variables0 input s1 :
  main_flow fuel (boot variables0 input) = Done tt s1 ->
  (Z.of_nat (length (artifacts (chain (now s1)))) <= UINT_MAX)%Z ->
  exists final summed,
    main fuel variables0 input = Done 0%Z final /\
    header summed
    = set_data
        (Some {| elems := Z.of_nat (length (artifacts (chain (now s1))));
                 samples := None |})
        (header (chain (now s1))) /\
    artifacts summed = artifacts (chain (now s1)) /\
    now final = snd (write_data (set_chain summed (now s1))) /\
    log final = log s1 ++ [Call_write_data] /\
    count_calls is_write_data (log final) = 1 /\
    ((exists rest, input = String "s" rest) \/
     (exists rest,
        input = String "p" rest /\
        skip_space rest <> EmptyString /\
        fst (read_radar_file (reader_world variables0 rest)) <> 0%Z)).
Proof.
  intros Hflow Hmax.
  eexists _,
    {| header :=
         set_data
           (malloc (build_metadata_count (artifacts (chain (now s1))) 0
                    * sizeof_complex_double))
           (header (chain (now s1)));
       artifacts := artifacts (chain (now s1)) |}.
  split; [by apply main_falls_through|].
  cbn [header artifacts now log].
  split.
  { rewrite build_metadata_count_spec by lia.
    unfold malloc, sizeof_complex_double.
    by rewrite Z.add_0_l, Z.div_mul by lia. }
  repeat (split; [reflexivity|]). split.
  - rewrite count_calls_app.
    pose proof (main_flow_writes_nothing fuel (boot variables0 input)) as Hq.
    rewrite Hflow in Hq. simpl in Hq. rewrite Hq. reflexivity.
  - destruct input as [|c rest].
    + by rewrite main_flow_end_of_input in Hflow.
    + destruct (ascii_dec c "s") as [->|Hs]; [eauto|].
      destruct (ascii_dec c "p") as [->|Hp].
      2: by rewrite main_flow_other_mode in Hflow.
      right. exists rest. split; [reflexivity|].
      destruct (string_dec (skip_space rest) EmptyString) as [Hskip|Hword].
      { by rewrite main_flow_process_end_of_input in Hflow. }
      split; [exact Hword|]. intros Hfail.
      rewrite main_flow_process_reads, Hfail in Hflow by exact Hword.
      discriminate Hflow.
Qed.

(** C6.  A simulate run whose prompts are answered calls, in this order:
    the chirp generator, the matched-chirp generator, the transform of
    "chirp", the transform of "match", the pulse compression of the signal,
    the resolution (which it prints), the insertion into the scene, the
    imager; then, each only on a ['y'], the CinSnow filters and the pulse
    compression of the image; then, whatever the answers, GBP and the
    transform of the GBP image; and last [write_data]. *)
Theorem simulate_run_order fuel variables0 rest r s1 pre1 a1 rest1 pre2 a2 rest2 :
  call (R := Z) simulate (mode_read variables0 "s" rest) = Done r s1 ->
  no_answer pre1 = true -> is_answer a1 = true -> String.length pre1 < fuel ->
  stdin (now s1) = pre1 +:+ String a1 rest1 ->
  no_answer pre2 = true -> is_answer a2 = true -> String.length pre2 < fuel ->
  stdin (cinsnow_world a1 (set_stdin rest1 (now s1))) = pre2 +:+ String a2 rest2 ->
  exists final i j meta_chirp meta_match resolution,
    main fuel variables0 (String "s" rest) = Done 0%Z final /\
    (let w := chirp_matched_generator
                (chirp_generator (now (mode_read variables0 "s" rest))) in
     get_matrix (Some (chain w)) "chirp" = Some i /\
     nodes (chain w) !! i = Some meta_chirp /\
     get_matrix (Some (chain w)) "match" = Some j /\
     nodes (chain w) !! j = Some meta_match) /\
    log final
    = [Printf "Do you wish to simulate or process radar data? (s/p): ";
       Call_chirp_generator;
       Call_chirp_matched_generator;
       Call_fft_waveform (m_rows meta_chirp) (m_data meta_chirp)
         (malloc (m_rows meta_chirp * sizeof_complex_double));
       Call_fft_waveform (m_rows meta_match) (m_data meta_match)
         (malloc (m_rows meta_match * sizeof_complex_double));
       Call_pulse_compress_signal;
       Call_calculate_compressed_pulse_resolution;
       Printf ("Compressed pulse resolution: " +:+ printf_lf resolution
               +:+ "m" +:+ nl);
       Call_insert_waveform_in_scene;
       Call_radar_imager;
       Printf "Do you want to employ CinSnow filtering to radar image (y/n)? "]
      ++ cinsnow_log a1
      ++ [Printf "Do you want to enable pulse compression (y/n)? "]
      ++ compress_log a2
      ++ [Call_gbp;
          Printf "Generating 2D FFT of GBP image ... ";
          Call_gbp_fft;
          Printf ("done." +:+ nl);
          Call_write_data].
Proof.
  intros Hsim Hpre1 Ha1 Hf1 Hin1 Hpre2 Ha2 Hf2 Hin2.
  destruct (simulate_returns_inv _ _ _ Hsim)
    as (i & j & mc & mm & res & -> & Hi & Hmc & Hj & Hmm & Hlog).
  pose proof (process_data_answered fuel s1 _ _ _ _ _ _
                Hpre1 Ha1 Hf1 Hin1 Hpre2 Ha2 Hf2 Hin2) as Hpd.
  eexists _, i, j, mc, mm, res. split.
  - apply main_falls_through. rewrite main_flow_simulate.
    rewrite (bind_Done _ _ _ _ _ Hsim). cbn [Z.eqb].
    unfold bind at 1. unfold ret at 1. unfold call. by rewrite Hpd.
  - split; [by repeat split|].
    cbn [log]. rewrite Hlog. cbn [mode_read log].
    rewrite <- !app_assoc. reflexivity.
Qed.

(** C8.  In a process run in which [read_radar_file] reports failure the
    program prints that the read failed and returns: after the call of the
    reader nothing else is called, neither [process_data]'s stages nor
    [write_data], the header gets no summary buffer, and the chain is as the
    reader left it (the header alone when a failing reader leaves the chain
    alone). *)
Theorem failed_read_aborts fuel variables0 rest :
  skip_space rest <> EmptyString ->
  fst (read_radar_file (reader_world variables0 rest)) = 0%Z ->
  exists final,
    main fuel variables0 (String "p" rest) = Done 0%Z final /\
    now final = snd (read_radar_file (reader_world variables0 rest)) /\
    log final
    = [Printf "Do you wish to simulate or process radar data? (s/p): ";
       Printf "Please enter file name of raw data: ";
       Call_read_radar_file;
       Printf ("Failed to read radar data, closing." +:+ nl)] /\
    count_calls is_call (log final) = 1 /\
    count_calls is_write_data (log final) = 0 /\
    (chain (snd (read_radar_file (reader_world variables0 rest)))
       = chain (reader_world variables0 rest) ->
     nodes (chain (now final)) = [strcpy_name "metadata" zero_matrix]).
Proof.
  intros Hword Hfail. eexists. split.
  - apply main_returns_early.
    rewrite main_flow_process_reads, Hfail by exact Hword.
    reflexivity.
  - cbn [now log]. repeat split; try reflexivity.
    intros ->. unfold reader_world.
    by destruct (read_word (skip_space rest)).
Qed.

(** The file-name prompt checks what [scanf] returned: at end of input the
    run stops before the reader is called. *)
Lemma file_name_prompt_end_of_input fuel variables0 rest :
  skip_space rest = EmptyString ->
  main fuel variables0 (String "p" rest)
  = Done 0%Z
      {| now := set_stdin EmptyString (now (mode_read variables0 "p" rest));
         log := [Printf "Do you wish to simulate or process radar data? (s/p): ";
                 Printf "Please enter file name of raw data: ";
                 Printf ("Invalid input detected, closing." +:+ nl)] |}.
Proof.
  intros Hskip. apply main_returns_early.
  by apply main_flow_process_end_of_input.
Qed.

(** The second prompt at end of input: [pc] still holds the answer to the
    first prompt, the loop takes it for an answer, and the run goes on to
    GBP (and, after a ['y'], through the pulse compression of the image). *)
Lemma second_prompt_reuses_answer fuel s pre1 a1 :
  no_answer pre1 = true -> is_answer a1 = true -> String.length pre1 < S fuel ->
  stdin (now s) = pre1 +:+ String a1 EmptyString ->
  stdin (cinsnow_world a1 (set_stdin EmptyString (now s))) = EmptyString ->
  process_data (S fuel) s
  = Done tt
      {| now := gbp_fft (gbp (compress_world a1
                  (cinsnow_world a1 (set_stdin EmptyString (now s)))));
         log := log s
           ++ [Printf "Do you want to employ CinSnow filtering to radar image (y/n)? "]
           ++ cinsnow_log a1
           ++ [Printf "Do you want to enable pulse compression (y/n)? "]
           ++ compress_log a1
           ++ [Call_gbp; Printf "Generating 2D FFT of GBP image ... ";
               Call_gbp_fft; Printf ("done." +:+ nl)] |}.
Proof.
  intros Hpre1 Ha1 Hf1 Hin1 Hin2.
  unfold process_data. rewrite run_printf.
  erewrite bind_Done
    by (eapply (do_while_yes_no_answered (S fuel) zero pre1 a1 EmptyString); eauto).
  cbn [now log]. rewrite run_cinsnow_gate. cbn [now log].
  rewrite run_printf. cbn [now log].
  erewrite bind_Done by (by apply do_while_yes_no_stale).
  rewrite run_compress_gate. cbn [now log].
  rewrite run_invoke, run_printf, run_invoke. cbn [now log].
  unfold printf, note. cbn [now log]. by rewrite <- !app_assoc.
Qed.

(** C9.  What the code does when the input ends at a yes/no prompt: in a
    simulate run whose stages have used up the input, the first prompt loop
    never ends, whatever the number of iterations allowed; [main] neither
    returns nor reaches [write_data]. *)
Theorem yes_no_prompt_spins_at_end_of_input fuel variables0 rest r s1 :
  call (R := Z) simulate (mode_read variables0 "s" rest) = Done r s1 ->
  stdin (now s1) = EmptyString ->
  main fuel variables0 (String "s" rest)
  = Spin {| now := now s1;
            log := log s1
              ++ [Printf "Do you want to employ CinSnow filtering to radar image (y/n)? "] |}.
Proof.
  intros Hsim Hin.
  destruct (simulate_returns_inv _ _ _ Hsim) as (_ & _ & _ & _ & _ & -> & _).
  apply main_spins. rewrite main_flow_simulate.
  rewrite (bind_Done _ _ _ _ _ Hsim). cbn [Z.eqb].
  unfold bind at 1. unfold ret at 1. unfold call, process_data.
  rewrite run_printf. unfold bind.
  by rewrite do_while_yes_no_eof.
Qed.

End Runs.

(** ** The stand-in stages at work *)

Section Worked_runs.
Existing Instance Demo.declarations.
Existing Instance Demo.stages.

Lemma append_then_lookup_witness :
  exists d' p,
    get_last_node (Some Demo.two_nodes) = Some (d', p) /\
    get_matrix (Some (set_node p (strcpy_name "match") d')) "match" = Some p /\
    nodes (set_node p (strcpy_name "match") d') !! p
      = Some (strcpy_name "match" zero_matrix).
Proof.
  apply (append_then_lookup Demo.two_nodes "match").
  intros m Hm. vm_compute in Hm.
  apply elem_of_cons in Hm as [-> | Hm]; [discriminate|].
  apply elem_of_cons in Hm as [-> | Hm]; [discriminate|].
  by apply elem_of_nil in Hm.
Defined.

Lemma unknown_mode_aborts_witness :
  exists final,
    main 1 Demo.variables0 "x" = Done 0%Z final /\
    nodes (chain (now final)) = [strcpy_name "metadata" zero_matrix] /\
    log final
    = [Printf "Do you wish to simulate or process radar data? (s/p): ";
       Printf ("Mode not recognized - exiting." +:+ nl)] /\
    count_calls is_call (log final) = 0 /\
    count_calls is_write_data (log final) = 0.
Proof.
  apply (unknown_mode_aborts 1 Demo.variables0 "x" ""); discriminate.
Defined.

Lemma summary_then_write_once_witness :
  exists final,
    main 3 Demo.variables0 "snn" = Done 0%Z final /\
    m_data (header (chain (now final)))
      = Some {| elems := 9; samples := None |} /\
    count_calls is_write_data (log final) = 1.
Proof.
  destruct (summary_then_write_once 3 Demo.variables0 "snn"
              (state_of (main_flow 3 (boot Demo.variables0 "snn"))))
    as (final & summed & Hrun & Hhead & Htail & Hnow & _ & Hcount & _).
  - vm_compute. reflexivity.
  - vm_compute. discriminate.
  - exists final. split; [exact Hrun|]. split; [|exact Hcount].
    rewrite Hnow. cbn [Demo.stages write_data snd set_chain chain].
    rewrite Hhead. reflexivity.
Defined.

Lemma yes_no_prompts_gate_once_witness :
  exists s' added,
    process_data 4 (Demo.prompted "hmy?n") = Done tt s' /\
    log s' = added /\
    count_calls is_cinsnowfilters added = 1 /\
    count_calls is_pulse_compress_image added = 0.
Proof.
  pose proof (yes_no_prompts_gate_once 4 (Demo.prompted "hmy?n")
              "hm" "y" "?n" "?" "n" "") as Hw.
  destruct Hw as ((s' & added & Hrun & Hlog & _ & _ & Hc1 & Hc2) & _);
    [ reflexivity | reflexivity | vm_compute; lia | reflexivity
    | reflexivity | reflexivity | vm_compute; lia | reflexivity | ].
  exists s', added. repeat split; assumption.
Defined.

Lemma simulate_run_order_witness :
  exists final,
    main 3 Demo.variables0 "sny" = Done 0%Z final /\
    log final
    = [Printf "Do you wish to simulate or process radar data? (s/p): ";
       Call_chirp_generator;
       Call_chirp_matched_generator;
       Call_fft_waveform 4 (Some {| elems := 4; samples := Some [] |})
         (Some {| elems := 4; samples := None |});
       Call_fft_waveform 4 (Some {| elems := 4; samples := Some [] |})
         (Some {| elems := 4; samples := None |});
       Call_pulse_compress_signal;
       Call_calculate_compressed_pulse_resolution;
       Printf ("Compressed pulse resolution: 1.500000m" +:+ nl);
       Call_insert_waveform_in_scene;
       Call_radar_imager;
       Printf "Do you want to employ CinSnow filtering to radar image (y/n)? ";
       Printf "Do you want to enable pulse compression (y/n)? ";
       Printf "Pulse-compressing image ... ";
       Call_pulse_compress_image;
       Printf ("done." +:+ nl);
       Call_gbp;
       Printf "Generating 2D FFT of GBP image ... ";
       Call_gbp_fft;
       Printf ("done." +:+ nl);
       Call_write_data].
Proof.
  pose proof (simulate_run_order 3 Demo.variables0 "ny" 0%Z
              (state_of (call (R := Z) simulate
                           (mode_read Demo.variables0 "s" "ny")))
              "" "n" "y" "" "y" "") as Hw.
  destruct Hw
    as (final & i & j & mc & mm & res & Hrun & (Hi & Hmc & Hj & Hmm) & Hlog);
   [ vm_compute; reflexivity | reflexivity | reflexivity | vm_compute; lia | vm_compute; reflexivity
   | reflexivity | reflexivity | vm_compute; lia | vm_compute; reflexivity | ].
  exists final. split; [exact Hrun|].
  vm_compute in Hi, Hj. injection Hi as <-. injection Hj as <-.
  vm_compute in Hmc, Hmm. injection Hmc as <-. injection Hmm as <-.
  rewrite Hlog. reflexivity.
Defined.

Lemma failed_read_aborts_witness :
  exists final,
    main 3 Demo.variables0 "p missing.dat" = Done 0%Z final /\
    log final
    = [Printf "Do you wish to simulate or process radar data? (s/p): ";
       Printf "Please enter file name of raw data: ";
       Call_read_radar_file;
       Printf ("Failed to read radar data, closing." +:+ nl)] /\
    count_calls is_write_data (log final) = 0 /\
    nodes (chain (now final)) = [strcpy_name "metadata" zero_matrix].
Proof.
  destruct (failed_read_aborts 3 Demo.variables0 " missing.dat")
    as (final & Hrun & Hnow & Hlog & _ & Hcount & Hchain);
    [vm_compute; discriminate | reflexivity |].
  exists final. repeat split; try assumption.
  apply Hchain. reflexivity.
Defined.

Lemma yes_no_prompt_spins_at_end_of_input_witness :
  exists s, main 7 Demo.variables0 "s" = Spin s /\
    count_calls is_write_data (log s) = 0.
Proof.
  eexists. split.
  - apply (yes_no_prompt_spins_at_end_of_input 7 Demo.variables0 "" 0%Z
             (state_of (call (R := Z) simulate
                          (mode_read Demo.variables0 "s" "")))).
    + vm_compute. reflexivity.
    + vm_compute. reflexivity.
  - vm_compute. reflexivity.
Defined.

End Worked_runs.

(** * More of the code

    ** Lookup and append together *)

Section Chain_more.
Context {decl : Declarations}.

Lemma get_matrix_scan_app l1 l2 k name :
  get_matrix_scan (l1 ++ l2) k name
  = match get_matrix_scan l1 k name with
    | Some p => Some p
    | None => get_matrix_scan l2 (k + length l1) name
    end.
Proof.
  revert k. induction l1 as [|m l1 IH]; intros k; simpl.
  - by rewrite Nat.add_0_r.
  - destruct (String.eqb name (m_name m)); [done|].
    rewrite IH. by replace (S k + length l1) with (k + S (length l1)) by lia.
Qed.

Lemma get_matrix_scan_names l1 l2 k name :
  m_name <$> l1 = m_name <$> l2 ->
  get_matrix_scan l1 k name = get_matrix_scan l2 k name.
Proof.
  revert l2 k. induction l1 as [|m1 l1 IH]; intros [|m2 l2] k Hn;
    simpl in *; try done.
  injection Hn as -> Hn. by rewrite (IH l2 (S k) Hn).
Qed.

Lemma get_matrix_Some (d : store) name :
  get_matrix (Some d) name = get_matrix_scan (nodes d) 0 name.
Proof. reflexivity. Qed.

(** X1.  [get_last_node] leaves every lookup as it was, but for the empty
    name: a name that was found is found at the same node, and a name other
    than the empty one that was not found is still not found. *)
Theorem lookup_survives_append (d : store) (name : string) :
  exists d' q,
    get_last_node (Some d) = Some (d', q) /\
    (forall p, get_matrix (Some d) name = Some p ->
               get_matrix (Some d') name = Some p) /\
    (name <> EmptyString ->
     get_matrix (Some d) name = None -> get_matrix (Some d') name = None).
Proof.
  eexists _, _. split; [apply get_last_node_Some|].
  rewrite !get_matrix_Some.
  change (nodes {| header := header d;
                   artifacts := artifacts d ++ [zero_matrix] |})
    with (nodes d ++ [zero_matrix]).
  split.
  - intros p Hp. by rewrite get_matrix_scan_app, Hp.
  - intros Hname Hnone. rewrite get_matrix_scan_app, Hnone. simpl.
    destruct (String.eqb name EmptyString) eqn:E; [|done].
    by apply String.eqb_eq in E.
Qed.

(** X2.  A node that [get_last_node] has linked and nobody has named yet
    answers to the empty name: with no empty name in the chain before, a
    lookup of the empty name returns the new node; and of two nodes linked
    one after the other and left unnamed, only the first can be found. *)
Theorem unnamed_node_has_empty_name (d : store) :
  (forall m, m ∈ nodes d -> m_name m <> EmptyString) ->
  exists d1 p1 d2 p2,
    get_last_node (Some d) = Some (d1, p1) /\
    get_matrix (Some d1) EmptyString = Some p1 /\
    get_last_node (Some d1) = Some (d2, p2) /\
    p2 = S p1 /\
    get_matrix (Some d2) EmptyString = Some p1 /\
    forall name, get_matrix (Some d2) name <> Some p2.
Proof.
  intros Hfresh. eexists _, _, _, _.
  split; [apply get_last_node_Some|].
  assert (H1 : get_matrix_scan (nodes d ++ [zero_matrix]) 0 EmptyString
               = Some (length (nodes d))).
  { by rewrite get_matrix_scan_app_fresh. }
  split; [exact H1|].
  split; [apply get_last_node_Some|].
  change (nodes {| header := header d;
                   artifacts := artifacts d ++ [zero_matrix] |})
    with (nodes d ++ [zero_matrix]).
  split; [rewrite length_app; simpl; lia|].
  setoid_rewrite get_matrix_Some. cbn [header artifacts].
  change (nodes {| header := header d;
                   artifacts := (artifacts d ++ [zero_matrix])
                                ++ [zero_matrix] |})
    with ((nodes d ++ [zero_matrix]) ++ [zero_matrix]).
  split.
  - by rewrite get_matrix_scan_app, H1.
  - intros name Hfound. rewrite get_matrix_scan_app in Hfound.
    destruct (get_matrix_scan (nodes d ++ [zero_matrix]) 0 name) as [p|] eqn:E.
    + apply get_matrix_scan_bounds in E. injection Hfound as ->.
      revert E. unfold nodes. simpl. rewrite !length_app. simpl. lia.
    + simpl in Hfound.
      destruct (String.eqb name EmptyString) eqn:En; [|done].
      apply String.eqb_eq in En as ->. by rewrite H1 in E.
Qed.

End Chain_more.

(** ** [free_memory] *)

Section Release_facts.
Context {decl : Declarations}.

Lemma freed_nodes_app c1 c2 :
  freed_nodes (c1 ++ c2) = freed_nodes c1 ++ freed_nodes c2.
Proof.
  induction c1 as [|[p|p] c1 IH]; simpl; [done| |]; by rewrite IH.
Qed.

Lemma freed_buffers_app c1 c2 :
  freed_buffers (c1 ++ c2) = freed_buffers c1 ++ freed_buffers c2.
Proof.
  induction c1 as [|[p|p] c1 IH]; simpl; [done| |]; by rewrite IH.
Qed.

Lemma free_memory_loop_nodes l k :
  freed_nodes (free_memory_loop l k) = seq k (length l).
Proof.
  revert k. induction l as [|m l IH]; intros k; simpl; [done|].
  rewrite freed_nodes_app. simpl. rewrite IH.
  by destruct (m_data m).
Qed.

Lemma free_memory_loop_buffers l k p :
  p ∈ freed_buffers (free_memory_loop l k) <->
  exists m b, k <= p /\ l !! (p - k) = Some m /\ m_data m = Some b.
Proof.
  revert k. induction l as [|m l IH]; intros k; simpl.
  - split; [intros Hp; by apply elem_of_nil in Hp|].
    by intros (m & b & _ & Hm & _).
  - rewrite freed_buffers_app. simpl. rewrite elem_of_app, IH. split.
    + intros [Hp | (m' & b & Hk & Hm' & Hb)].
      * destruct (m_data m) as [b|] eqn:Hb; simpl in Hp.
        -- apply list_elem_of_singleton in Hp as ->.
           exists m, b. rewrite Nat.sub_diag. auto.
        -- by apply elem_of_nil in Hp.
      * exists m', b. split; [lia|]. split; [|done].
        by replace (p - k) with (S (p - S k)) by lia.
    + intros (m' & b & Hk & Hm' & Hb).
      destruct (decide (p = k)) as [->|Hne].
      * left. rewrite Nat.sub_diag in Hm'. injection Hm' as ->.
        rewrite Hb. simpl. by apply list_elem_of_singleton.
      * right. exists m', b. split; [lia|]. split; [|done].
        by replace (p - k) with (S (p - S k)) in Hm' by lia.
Qed.

Lemma free_memory_loop_buffers_NoDup l k :
  NoDup (freed_buffers (free_memory_loop l k)) /\
  forall p, p ∈ freed_buffers (free_memory_loop l k) -> k <= p.
Proof.
  revert k. induction l as [|m l IH]; intros k; simpl.
  - split; [constructor | intros p Hp; by apply elem_of_nil in Hp].
  - destruct (IH (S k)) as [Hnd Hlow].
    rewrite freed_buffers_app. simpl.
    destruct (m_data m); simpl.
    + split.
      * constructor; [|done]. intros Hk. apply Hlow in Hk. lia.
      * intros p Hp. apply elem_of_cons in Hp as [->|Hp]; [lia|].
        apply Hlow in Hp. lia.
    + split; [done|]. intros p Hp. apply Hlow in Hp. lia.
Qed.

Lemma free_memory_loop_order l k i p :
  free_memory_loop l k !! i = Some (Free_data p) ->
  free_memory_loop l k !! S i = Some (Free_node p).
Proof.
  revert k i. induction l as [|m l IH]; intros k i; simpl; [done|].
  destruct (m_data m); simpl.
  - destruct i as [|[|i]]; simpl.
    + by intros [= <-].
    + done.
    + apply IH.
  - destruct i as [|i]; simpl; [done|]. apply IH.
Qed.

(** X3.  [free_memory] reads [ptr->next] before it tests [ptr], so a [NULL]
    argument is dereferenced.  On a chain it frees every node once, in
    chain order, and every buffer that is not [NULL] once, each buffer just
    before the node that holds it. *)
Theorem free_memory_frees_each_once (d : store) :
  free_memory None = None /\
  exists calls,
    free_memory (Some d) = Some calls /\
    freed_nodes calls = seq 0 (length (nodes d)) /\
    NoDup (freed_buffers calls) /\
    (forall p, p ∈ freed_buffers calls <->
               exists m b, nodes d !! p = Some m /\ m_data m = Some b) /\
    (forall i p, calls !! i = Some (Free_data p) ->
                 calls !! S i = Some (Free_node p)).
Proof.
  split; [reflexivity|]. eexists. split; [reflexivity|].
  split; [apply free_memory_loop_nodes|].
  split; [apply free_memory_loop_buffers_NoDup|].
  split; [|apply free_memory_loop_order].
  intros p. rewrite free_memory_loop_buffers, Nat.sub_0_r. split.
  - intros (m & b & _ & Hm & Hb). eauto.
  - intros (m & b & Hm & Hb). exists m, b. split; [lia|]. auto.
Qed.

End Release_facts.

(** ** [build_metadata], the prompt loop and [process_data] on every input *)

Section Behaviours.
Context {decl : Declarations} {stg : Stages}.
Open Scope prog_scope.

(** X4.  [build_metadata] changes the header's buffer and nothing else: the
    nodes behind the header, the header's name and dimensions, every lookup,
    the variables, the input and the log are as before.  The buffer has as
    many slots as there are nodes behind the header, counted modulo
    [UINT_MAX + 1]; whatever buffer the header held is dropped, and a second
    call leaves the same state again. *)
Theorem build_metadata_replaces_header_buffer s :
  exists s',
    call (R := Z) build_metadata s = Done tt s' /\
    header (chain (now s'))
    = set_data
        (Some {| elems := uint (Z.of_nat (length (artifacts (chain (now s)))));
                 samples := None |})
        (header (chain (now s))) /\
    artifacts (chain (now s')) = artifacts (chain (now s)) /\
    variables (now s') = variables (now s) /\
    stdin (now s') = stdin (now s) /\
    log s' = log s /\
    (forall name,
       get_matrix (Some (chain (now s'))) name
       = get_matrix (Some (chain (now s))) name) /\
    call (R := Z) build_metadata s' = Done tt s'.
Proof.
  eexists. split; [apply build_metadata_Done|].
  cbn [now log chain set_chain header artifacts variables stdin].
  assert (Hslots :
    malloc (build_metadata_count (artifacts (chain (now s))) 0
            * sizeof_complex_double)
    = Some {| elems := uint (Z.of_nat (length (artifacts (chain (now s)))));
              samples := None |}).
  { rewrite build_metadata_count_mod by (unfold UINT_MAX; lia).
    unfold malloc, sizeof_complex_double.
    by rewrite Z.add_0_l, Z.div_mul by lia. }
  rewrite Hslots.
  do 5 (split; [reflexivity|]). split.
  { intros name. rewrite !get_matrix_Some. by apply get_matrix_scan_names. }
  rewrite build_metadata_Done.
  cbn [now log chain set_chain header artifacts variables stdin].
  by rewrite Hslots.
Qed.

Lemma no_answer_false_split input :
  no_answer input = false ->
  exists pre a rest,
    input = pre +:+ String a rest /\ no_answer pre = true /\ is_answer a = true.
Proof.
  induction input as [|c input IH]; simpl; [discriminate|].
  destruct (is_answer c) eqn:Hc; simpl.
  - intros _. by exists EmptyString, c, input.
  - intros Hno. destruct (IH Hno) as (pre & a & rest & -> & Hpre & Ha).
    exists (String c pre), a, rest. simpl. by rewrite Hc.
Qed.

Lemma no_answer_app pre a rest :
  is_answer a = true -> no_answer (pre +:+ String a rest) = false.
Proof.
  intros Ha. induction pre as [|c pre IH]; simpl.
  - by rewrite Ha.
  - rewrite IH. apply andb_false_r.
Qed.

(** Input without an answer in it: the loop goes round for ever, unless the
    input is empty and [pc] holds an answer from before. *)
Lemma do_while_yes_no_unanswered {R} fuel pc s :
  no_answer (stdin (now s)) = true ->
  stdin (now s) <> EmptyString \/ is_answer pc = false ->
  exists s', do_while_yes_no (R := R) fuel pc s = Spin s'.
Proof.
  revert pc s. induction fuel as [|fuel IH]; intros pc s Hno Hpc; simpl; [eauto|].
  unfold bind, scanf_char.
  destruct (stdin (now s)) as [|c rest] eqn:Hin; simpl.
  - destruct Hpc as [Hpc|Hpc]; [done|].
    destruct (not_answer_cases _ Hpc) as [-> ->].
    apply IH; [by rewrite Hin | right; done].
  - simpl in Hno. apply andb_prop in Hno as [Hc Hno].
    apply negb_true_iff in Hc.
    destruct (not_answer_cases _ Hc) as [-> ->].
    apply IH; [done | by right].
Qed.

(** X5.  When a yes/no loop ends.  The loop is left, given iterations
    enough, exactly when the input still holds a ['y'] or an ['n'], or when
    the input is at its end and [pc] holds one already; on any other input
    it is never left. *)
Theorem yes_no_loop_ends_iff pc s :
  (exists fuel r s', do_while_yes_no (R := unit) fuel pc s = Done r s') <->
  no_answer (stdin (now s)) = false \/
  (stdin (now s) = EmptyString /\ is_answer pc = true).
Proof.
  split.
  - intros (fuel & r & s' & Hrun).
    destruct (no_answer (stdin (now s))) eqn:Hno; [|by left].
    right. destruct (stdin (now s)) as [|c rest] eqn:Hin.
    + split; [done|]. destruct (is_answer pc) eqn:Hpc; [done|].
      rewrite do_while_yes_no_eof in Hrun by done. discriminate.
    + destruct (do_while_yes_no_unanswered (R := unit) fuel pc s) as [s0 Hs0].
      * by rewrite Hin.
      * left. by rewrite Hin.
      * rewrite Hs0 in Hrun. discriminate.
  - intros [Hno | [Hin Hpc]].
    + destruct (no_answer_false_split _ Hno) as (pre & a & rest & Hin & Hpre & Ha).
      exists (S (String.length pre)), a. eexists.
      apply (do_while_yes_no_answered _ pc pre a rest); auto.
    + exists 1, pc, s. by apply do_while_yes_no_stale.
Qed.

(** The loop reads and does nothing else. *)
Lemma do_while_yes_no_frame {R} fuel pc s :
  match do_while_yes_no (R := R) fuel pc s with
  | Done r s1 =>
      is_answer r = true /\ log s1 = log s
  | Spin s1 => log s1 = log s
  | Returning _ _ | Fault _ => False
  end.
Proof.
  revert pc s. induction fuel as [|fuel IH]; intros pc s; simpl; [done|].
  unfold bind, scanf_char.
  destruct (stdin (now s)) as [|c rest]; simpl.
  - destruct (Ascii.eqb pc "y") eqn:Hy.
    { unfold ret, is_answer. by rewrite Hy. }
    destruct (Ascii.eqb pc "n") eqn:Hn.
    { unfold ret, is_answer. by rewrite Hy, Hn. }
    apply IH.
  - destruct (Ascii.eqb c "y") eqn:Hy.
    { unfold ret, is_answer. by rewrite Hy. }
    destruct (Ascii.eqb c "n") eqn:Hn.
    { unfold ret, is_answer. by rewrite Hy, Hn. }
    specialize (IH c {| now := set_stdin rest (now s); log := log s |}).
    by destruct (do_while_yes_no fuel c _).
Qed.

(** X6.  All that [process_data] can do.  Either it comes back, and then it
    has printed the two prompts, run each gated block as an answer ['y'] or
    ['n'] says, and called [gbp] and then [gbp_fft], each once; or it is
    caught for ever in the first prompt loop, or in the second one.  It
    dereferences nothing and calls no other stage. *)
Theorem process_data_behaviours fuel s :
  match process_data fuel s with
  | Done _ s' =>
      exists a1 a2,
        is_answer a1 = true /\ is_answer a2 = true /\
        log s'
        = log s
          ++ [Printf "Do you want to employ CinSnow filtering to radar image (y/n)? "]
          ++ cinsnow_log a1
          ++ [Printf "Do you want to enable pulse compression (y/n)? "]
          ++ compress_log a2
          ++ [Call_gbp; Printf "Generating 2D FFT of GBP image ... ";
              Call_gbp_fft; Printf ("done." +:+ nl)]
  | Spin s' =>
      log s'
      = log s
        ++ [Printf "Do you want to employ CinSnow filtering to radar image (y/n)? "]
      \/
      exists a1,
        is_answer a1 = true /\
        log s'
        = log s
          ++ [Printf "Do you want to employ CinSnow filtering to radar image (y/n)? "]
          ++ cinsnow_log a1
          ++ [Printf "Do you want to enable pulse compression (y/n)? "]
  | Returning _ _ | Fault _ => False
  end.
Proof.
  unfold process_data. rewrite run_printf. unfold bind at 1.
  pose proof (do_while_yes_no_frame (R := unit) fuel zero
                {| now := now s;
                   log := log s ++ [Printf "Do you want to employ CinSnow filtering to radar image (y/n)? "] |})
    as H1.
  destruct (do_while_yes_no fuel zero _) as [a1 s1| | |s1]; try done.
  2: { left. exact H1. }
  destruct H1 as [Ha1 Hlog1]. cbn [log] in Hlog1.
  rewrite run_cinsnow_gate, run_printf. cbn [now log]. unfold bind at 1.
  pose proof (do_while_yes_no_frame (R := unit) fuel a1
                {| now := cinsnow_world a1 (now s1);
                   log := (log s1 ++ cinsnow_log a1)
                          ++ [Printf "Do you want to enable pulse compression (y/n)? "] |})
    as H2.
  destruct (do_while_yes_no fuel a1 _) as [a2 s2| | |s2]; try done.
  2: { right. exists a1. split; [done|]. cbn [log] in H2.
       rewrite H2, Hlog1. by rewrite <- !app_assoc. }
  destruct H2 as [Ha2 Hlog2]. cbn [log] in Hlog2.
  rewrite run_compress_gate, run_invoke, run_printf, run_invoke.
  unfold printf, note. cbn [now log].
  exists a1, a2. repeat (split; [done|]).
  rewrite Hlog2, Hlog1. by rewrite <- !app_assoc.
Qed.

End Behaviours.

(** ** [simulate] on every chain *)

Section Simulate_more.
Context {decl : Declarations} {stg : Stages}.
Open Scope prog_scope.

Lemma simulate_spectra_Fault {R} s :
  let w := chirp_matched_generator (chirp_generator (now s)) in
  get_matrix (Some (chain w)) "chirp" = None \/
  get_matrix (Some (chain w)) "match" = None ->
  simulate_spectra (R := R) s
  = Fault {| now := w;
             log := log s ++ [Call_chirp_generator;
                              Call_chirp_matched_generator] |}.
Proof.
  intros w Hmiss. unfold simulate_spectra.
  rewrite !run_invoke. cbn [now log]. fold w. rewrite <- app_assoc.
  rewrite run_lookup. cbn [now].
  destruct (get_matrix (Some (chain w)) "chirp") as [i|] eqn:Hi.
  2: { unfold bind, load. reflexivity. }
  destruct Hmiss as [Hmiss|Hj]; [done|].
  destruct (get_matrix_valid _ _ _ Hi) as (mc & Hmc & _).
  rewrite (run_load i _ _ _ mc) by exact Hmc.
  rewrite run_lookup. cbn [now]. rewrite Hj.
  unfold bind, load. reflexivity.
Qed.

(** X7.  All that [simulate] can do.  With a node named "chirp" and a node
    named "match" in the chain the two generators leave, it calls its nine
    stages in order and returns [0]; without one of them it dereferences the
    [NULL] that [get_matrix] returned, right after the two generators and
    before anything is linked or called.  It never returns [-1], the value
    [main] tests for. *)
Theorem simulate_behaviours s :
  let w := chirp_matched_generator (chirp_generator (now s)) in
  match call (R := Z) simulate s with
  | Done r s1 =>
      r = 0%Z /\
      exists i j meta_chirp meta_match resolution,
        get_matrix (Some (chain w)) "chirp" = Some i /\
        nodes (chain w) !! i = Some meta_chirp /\
        get_matrix (Some (chain w)) "match" = Some j /\
        nodes (chain w) !! j = Some meta_match /\
        log s1
        = log s
          ++ [Call_chirp_generator; Call_chirp_matched_generator;
              Call_fft_waveform (m_rows meta_chirp) (m_data meta_chirp)
                (malloc (m_rows meta_chirp * sizeof_complex_double));
              Call_fft_waveform (m_rows meta_match) (m_data meta_match)
                (malloc (m_rows meta_match * sizeof_complex_double));
              Call_pulse_compress_signal;
              Call_calculate_compressed_pulse_resolution;
              Printf ("Compressed pulse resolution: " +:+ printf_lf resolution
                      +:+ "m" +:+ nl);
              Call_insert_waveform_in_scene;
              Call_radar_imager]
  | Fault s1 =>
      (get_matrix (Some (chain w)) "chirp" = None \/
       get_matrix (Some (chain w)) "match" = None) /\
      now s1 = w /\
      log s1 = log s ++ [Call_chirp_generator; Call_chirp_matched_generator]
  | Returning _ _ | Spin _ => False
  end.
Proof.
  intros w.
  destruct (call (R := Z) simulate s) as [r s1|r s1|s1|s1] eqn:Hrun.
  - destruct (simulate_returns_inv _ _ _ Hrun)
      as (i & j & mc & mm & res & -> & Hi & Hmc & Hj & Hmm & Hlog).
    split; [done|]. by exists i, j, mc, mm, res.
  - unfold call in Hrun. by destruct (simulate s).
  - assert (Hmiss : get_matrix (Some (chain w)) "chirp" = None \/
                    get_matrix (Some (chain w)) "match" = None).
    { destruct (get_matrix (Some (chain w)) "chirp") as [i|] eqn:Hi; [|by left].
      destruct (get_matrix (Some (chain w)) "match") as [j|] eqn:Hj; [|by right].
      destruct (simulate_spectra_runs (R := Z) s i j Hi Hj)
        as (mc & mm & _ & _ & _ & _ & Hsp).
      unfold call, simulate in Hrun.
      rewrite (bind_Done _ _ _ _ _ Hsp) in Hrun.
      rewrite (bind_Done _ _ _ _ _ (simulate_scene_Done _)) in Hrun.
      discriminate Hrun. }
    split; [exact Hmiss|].
    unfold call, simulate, bind in Hrun.
    rewrite (simulate_spectra_Fault s Hmiss) in Hrun.
    by injection Hrun as <-.
  - unfold call, simulate, bind in Hrun.
    destruct (get_matrix (Some (chain w)) "chirp") as [i|] eqn:Hi.
    2: { by rewrite (simulate_spectra_Fault s (or_introl Hi)) in Hrun. }
    destruct (get_matrix (Some (chain w)) "match") as [j|] eqn:Hj.
    2: { by rewrite (simulate_spectra_Fault s (or_intror Hj)) in Hrun. }
    destruct (simulate_spectra_runs (R := Z) s i j Hi Hj)
      as (mc & mm & _ & _ & _ & _ & Hsp).
    rewrite Hsp, simulate_scene_Done in Hrun. discriminate Hrun.
Qed.

(** X9.  The spectra can be looked up.  When the generators left no node
    named "chirp_fft" or "match_fft", [get_matrix] finds, after the first
    half of [simulate], the two new nodes under these names, at the two
    positions behind the old chain; and every name that was found before is
    found at the same node. *)
Theorem spectra_found_under_their_names s i j :
  let w := chirp_matched_generator (chirp_generator (now s)) in
  get_matrix (Some (chain w)) "chirp" = Some i ->
  get_matrix (Some (chain w)) "match" = Some j ->
  (forall m, m ∈ nodes (chain w) ->
             m_name m <> "chirp_fft" /\ m_name m <> "match_fft") ->
  exists s',
    simulate_spectra (R := Z) s = Done tt s' /\
    get_matrix (Some (chain (now s'))) "chirp_fft"
      = Some (length (nodes (chain w))) /\
    get_matrix (Some (chain (now s'))) "match_fft"
      = Some (S (length (nodes (chain w)))) /\
    forall name p,
      get_matrix (Some (chain w)) name = Some p ->
      get_matrix (Some (chain (now s'))) name = Some p.
Proof.
  intros w Hi Hj Hfresh.
  destruct (simulate_spectra_runs (R := Z) s i j Hi Hj)
    as (mc & mm & _ & _ & _ & _ & Hsp).
  fold w in Hsp. eexists. split; [exact Hsp|].
  unfold set_chain. cbn [now chain]. setoid_rewrite get_matrix_Some.
  change (nodes {| header := header (chain w);
                   artifacts := artifacts (chain w)
                     ++ [chirp_fft_node mc; match_fft_node mc mm] |})
    with (nodes (chain w) ++ [chirp_fft_node mc; match_fft_node mc mm]).
  assert (Hc : get_matrix_scan (nodes (chain w)) 0 "chirp_fft" = None).
  { apply get_matrix_scan_None. intros m Hm. by apply Hfresh. }
  assert (Hm : get_matrix_scan (nodes (chain w)) 0 "match_fft" = None).
  { apply get_matrix_scan_None. intros m Hm. by apply Hfresh. }
  split; [by rewrite get_matrix_scan_app, Hc|].
  split; [by rewrite get_matrix_scan_app, Hm|].
  intros name p Hp. by rewrite get_matrix_scan_app, Hp.
Qed.

End Simulate_more.

(** ** More runs of [main] *)

Section Runs_more.
Context {decl : Declarations} {stg : Stages}.
Open Scope prog_scope.

Lemma main_faults fuel variables0 input s1 :
  main_flow fuel (boot variables0 input) = Fault s1 ->
  main fuel variables0 input = Fault s1.
Proof. intros Hflow. unfold main, call, bind. by rewrite Hflow. Qed.

(** X10.  A simulate run whose generators leave no node named "chirp", or
    none named "match", ends in a dereference of [NULL]: the two generators
    are the only stages called, nothing is linked behind what they left, and
    [write_data] is not reached. *)
Theorem simulate_run_without_waveform_faults fuel variables0 rest :
  let w := chirp_matched_generator
             (chirp_generator (now (mode_read variables0 "s" rest))) in
  get_matrix (Some (chain w)) "chirp" = None \/
  get_matrix (Some (chain w)) "match" = None ->
  main fuel variables0 (String "s" rest)
  = Fault
      {| now := w;
         log := [Printf "Do you wish to simulate or process radar data? (s/p): ";
                 Call_chirp_generator;
                 Call_chirp_matched_generator] |}.
Proof.
  intros w Hmiss. apply main_faults. rewrite main_flow_simulate.
  unfold bind at 1. unfold call, simulate. unfold bind at 1.
  by rewrite (simulate_spectra_Fault _ Hmiss).
Qed.

Lemma main_flow_returns_zero fuel s (r : Z) s' :
  main_flow fuel s = Returning r s' -> r = 0%Z.
Proof.
  unfold main_flow, bind, printf, note, getchar, write, read,
    scanf_radar_data_filename, invoke_for, call, ret, return_.
  cbn [now log].
  intros Hrun. repeat case_match; by simplify_eq.
Qed.

(** X11.  The exit status of [main] is [0] on every path: after a full run,
    after an unknown mode, after a file name that could not be read and
    after a failed read alike. *)
Theorem main_exit_status_is_zero fuel variables0 input :
  match main fuel variables0 input with
  | Done r _ => r = 0%Z
  | Returning _ _ => False
  | Fault _ | Spin _ => True
  end.
Proof.
  unfold main, call, bind.
  destruct (main_flow fuel (boot variables0 input)) as [[] s1|r s1|s1|s1] eqn:Hflow.
  - by rewrite main_finish_Returning.
  - by apply main_flow_returns_zero in Hflow.
  - done.
  - done.
Qed.

(** X12.  A process run whose file is read and whose prompts are answered
    calls the reader, then runs [process_data] (each gated block on a ['y'],
    [gbp], [gbp_fft]) and ends with [write_data]; no stage of [simulate] is
    called. *)
Theorem process_run_order fuel variables0 rest pre1 a1 rest1 pre2 a2 rest2 :
  skip_space rest <> EmptyString ->
  fst (read_radar_file (reader_world variables0 rest)) <> 0%Z ->
  let w := snd (read_radar_file (reader_world variables0 rest)) in
  no_answer pre1 = true -> is_answer a1 = true -> String.length pre1 < fuel ->
  stdin w = pre1 +:+ String a1 rest1 ->
  no_answer pre2 = true -> is_answer a2 = true -> String.length pre2 < fuel ->
  stdin (cinsnow_world a1 (set_stdin rest1 w)) = pre2 +:+ String a2 rest2 ->
  exists final,
    main fuel variables0 (String "p" rest) = Done 0%Z final /\
    log final
    = [Printf "Do you wish to simulate or process radar data? (s/p): ";
       Printf "Please enter file name of raw data: ";
       Call_read_radar_file;
       Printf "Do you want to employ CinSnow filtering to radar image (y/n)? "]
      ++ cinsnow_log a1
      ++ [Printf "Do you want to enable pulse compression (y/n)? "]
      ++ compress_log a2
      ++ [Call_gbp;
          Printf "Generating 2D FFT of GBP image ... ";
          Call_gbp_fft;
          Printf ("done." +:+ nl);
          Call_write_data].
Proof.
  intros Hword Hok w Hpre1 Ha1 Hf1 Hin1 Hpre2 Ha2 Hf2 Hin2.
  pose proof (process_data_answered fuel
                {| now := w;
                   log := [Printf "Do you wish to simulate or process radar data? (s/p): ";
                           Printf "Please enter file name of raw data: ";
                           Call_read_radar_file] |}
                _ _ _ _ _ _ Hpre1 Ha1 Hf1 Hin1 Hpre2 Ha2 Hf2 Hin2) as Hpd.
  eexists. split.
  - apply main_falls_through.
    rewrite main_flow_process_reads by exact Hword.
    apply Z.eqb_neq in Hok. rewrite Hok.
    unfold bind at 1. unfold ret at 1. unfold call. fold w. by rewrite Hpd.
  - cbn [log]. by rewrite <- !app_assoc.
Qed.

(** X13.  End of input before any stage.  At the mode prompt [getchar]
    returns [EOF], which is no mode: the run ends as for an unknown mode.  At
    the file-name prompt, with nothing but white space left, [scanf] returns
    [EOF] and the run ends before the reader is called.  In both cases no
    stage is called and the chain is the header alone. *)
Theorem end_of_input_before_any_stage fuel variables0 rest :
  skip_space rest = EmptyString ->
  (exists final,
     main fuel variables0 EmptyString = Done 0%Z final /\
     log final
     = [Printf "Do you wish to simulate or process radar data? (s/p): ";
        Printf ("Mode not recognized - exiting." +:+ nl)] /\
     nodes (chain (now final)) = [strcpy_name "metadata" zero_matrix]) /\
  (exists final,
     main fuel variables0 (String "p" rest) = Done 0%Z final /\
     log final
     = [Printf "Do you wish to simulate or process radar data? (s/p): ";
        Printf "Please enter file name of raw data: ";
        Printf ("Invalid input detected, closing." +:+ nl)] /\
     nodes (chain (now final)) = [strcpy_name "metadata" zero_matrix]).
Proof.
  intros Hskip. split.
  - eexists. split.
    + apply main_returns_early. apply main_flow_end_of_input.
    + by split.
  - eexists. split.
    + apply main_returns_early. by apply main_flow_process_end_of_input.
    + by split.
Qed.

(** X14.  End of input at the second prompt.  When the input ends with the
    answer to the first prompt, the second loop finds that answer still in
    [pc] and takes it: the run goes on as if the second prompt had been
    given the same answer, through [gbp], [gbp_fft] and [write_data]. *)
Theorem first_answer_answers_second_prompt
    fuel variables0 rest r s1 pre1 a1 :
  call (R := Z) simulate (mode_read variables0 "s" rest) = Done r s1 ->
  no_answer pre1 = true -> is_answer a1 = true -> String.length pre1 < S fuel ->
  stdin (now s1) = pre1 +:+ String a1 EmptyString ->
  stdin (cinsnow_world a1 (set_stdin EmptyString (now s1))) = EmptyString ->
  exists final,
    main (S fuel) variables0 (String "s" rest) = Done 0%Z final /\
    log final
    = log s1
      ++ [Printf "Do you want to employ CinSnow filtering to radar image (y/n)? "]
      ++ cinsnow_log a1
      ++ [Printf "Do you want to enable pulse compression (y/n)? "]
      ++ compress_log a1
      ++ [Call_gbp;
          Printf "Generating 2D FFT of GBP image ... ";
          Call_gbp_fft;
          Printf ("done." +:+ nl);
          Call_write_data].
Proof.
  intros Hsim Hpre1 Ha1 Hf1 Hin1 Hin2.
  destruct (simulate_returns_inv _ _ _ Hsim) as (_ & _ & _ & _ & _ & -> & _).
  pose proof (second_prompt_reuses_answer fuel s1 pre1 a1
                Hpre1 Ha1 Hf1 Hin1 Hin2) as Hpd.
  eexists. split.
  - apply main_falls_through. rewrite main_flow_simulate.
    rewrite (bind_Done _ _ _ _ _ Hsim). cbn [Z.eqb].
    unfold bind at 1. unfold ret at 1. unfold call. by rewrite Hpd.
  - cbn [log]. by rewrite <- !app_assoc.
Qed.

End Runs_more.

(** ** [write_data] on every run *)

Section Write_facts.
Context {decl : Declarations} {stg : Stages}.
Open Scope prog_scope.

(** X15.  [write_data] is called once when control falls out of the mode
    branches of [main], as the last thing the run does, and not at all on
    any other run: not after an unknown mode or a failed read, not when
    [simulate] dereferences [NULL], not while a prompt loop goes round. *)
Theorem write_data_only_after_full_run fuel variables0 input :
  match main_flow fuel (boot variables0 input) with
  | Done _ s1 =>
      exists final,
        main fuel variables0 input = Done 0%Z final /\
        log final = log s1 ++ [Call_write_data] /\
        count_calls is_write_data (log final) = 1
  | _ =>
      count_calls is_write_data (log (state_of (main fuel variables0 input)))
      = 0
  end.
Proof.
  pose proof (main_flow_writes_nothing fuel (boot variables0 input)) as Hq.
  destruct (main_flow fuel (boot variables0 input)) as [[] s1|r s1|s1|s1] eqn:Hflow;
    simpl in Hq.
  - eexists. split; [by apply main_falls_through|]. cbn [log].
    split; [reflexivity|]. rewrite count_calls_app, Hq. reflexivity.
  - by rewrite (main_returns_early _ _ _ _ _ Hflow).
  - by rewrite (main_faults _ _ _ _ Hflow).
  - by rewrite (main_spins _ _ _ _ Hflow).
Qed.

End Write_facts.


(** ** More runs of the stand-in stages *)

Section Worked_more.
Existing Instance Demo.declarations.
Existing Instance Demo.stages.

Lemma unnamed_node_has_empty_name_witness :
  exists d1 p1 d2 p2,
    get_last_node (Some Demo.two_nodes) = Some (d1, p1) /\
    get_matrix (Some d1) EmptyString = Some p1 /\
    get_last_node (Some d1) = Some (d2, p2) /\
    p2 = S p1 /\
    get_matrix (Some d2) EmptyString = Some p1 /\
    forall name, get_matrix (Some d2) name <> Some p2.
Proof.
  apply (unnamed_node_has_empty_name Demo.two_nodes).
  intros m Hm. vm_compute in Hm.
  apply elem_of_cons in Hm as [-> | Hm]; [discriminate|].
  apply elem_of_cons in Hm as [-> | Hm]; [discriminate|].
  by apply elem_of_nil in Hm.
Defined.

Lemma spectra_found_under_their_names_witness :
  exists s',
    simulate_spectra (R := Z) (mode_read Demo.variables0 "s" "") = Done tt s' /\
    get_matrix (Some (chain (now s'))) "chirp_fft" = Some 3 /\
    get_matrix (Some (chain (now s'))) "match_fft" = Some 4.
Proof.
  destruct (spectra_found_under_their_names
              (mode_read Demo.variables0 "s" "") 1 2)
    as (s' & Hrun & Hc & Hm & _); [reflexivity | reflexivity | |].
  - intros m Hm. vm_compute in Hm.
    apply elem_of_cons in Hm as [-> | Hm]; [split; discriminate|].
    apply elem_of_cons in Hm as [-> | Hm]; [split; discriminate|].
    apply elem_of_cons in Hm as [-> | Hm]; [split; discriminate|].
    by apply elem_of_nil in Hm.
  - exists s'. repeat split; assumption.
Defined.

Lemma simulate_run_without_waveform_faults_witness :
  exists s,
    main (stg := Variants.stages_making "signal" 4) 3 Demo.variables0 "snn"
    = Fault s /\
    log s
    = [Printf "Do you wish to simulate or process radar data? (s/p): ";
       Call_chirp_generator;
       Call_chirp_matched_generator].
Proof.
  eexists. split.
  - apply (simulate_run_without_waveform_faults
             (stg := Variants.stages_making "signal" 4) 3 Demo.variables0 "nn").
    left. reflexivity.
  - reflexivity.
Defined.

Lemma process_run_order_witness :
  exists final,
    main 3 Demo.variables0 "p m.dat ny" = Done 0%Z final /\
    log final
    = [Printf "Do you wish to simulate or process radar data? (s/p): ";
       Printf "Please enter file name of raw data: ";
       Call_read_radar_file;
       Printf "Do you want to employ CinSnow filtering to radar image (y/n)? ";
       Printf "Do you want to enable pulse compression (y/n)? ";
       Printf "Pulse-compressing image ... ";
       Call_pulse_compress_image;
       Printf ("done." +:+ nl);
       Call_gbp;
       Printf "Generating 2D FFT of GBP image ... ";
       Call_gbp_fft;
       Printf ("done." +:+ nl);
       Call_write_data].
Proof.
  apply (process_run_order 3 Demo.variables0 " m.dat ny" " " "n" "y" "" "y" "").
  - vm_compute. discriminate.
  - vm_compute. discriminate.
  - reflexivity.
  - reflexivity.
  - vm_compute. lia.
  - reflexivity.
  - reflexivity.
  - reflexivity.
  - vm_compute. lia.
  - reflexivity.
Defined.

Lemma end_of_input_before_any_stage_witness :
  exists final,
    main 3 Demo.variables0 "p  " = Done 0%Z final /\
    log final
    = [Printf "Do you wish to simulate or process radar data? (s/p): ";
       Printf "Please enter file name of raw data: ";
       Printf ("Invalid input detected, closing." +:+ nl)] /\
    nodes (chain (now final)) = [strcpy_name "metadata" zero_matrix].
Proof.
  apply (end_of_input_before_any_stage 3 Demo.variables0 "  "). reflexivity.
Defined.

Lemma first_answer_answers_second_prompt_witness :
  exists final,
    main 3 Demo.variables0 "sy" = Done 0%Z final /\
    count_calls is_cinsnowfilters (log final) = 1 /\
    count_calls is_pulse_compress_image (log final) = 1 /\
    count_calls is_write_data (log final) = 1.
Proof.
  destruct (first_answer_answers_second_prompt 2 Demo.variables0 "y" 0%Z
              (state_of (call (R := Z) simulate
                           (mode_read Demo.variables0 "s" "y")))
              "" "y")
    as (final & Hrun & Hlog);
    [ vm_compute; reflexivity | reflexivity | reflexivity | vm_compute; lia
    | vm_compute; reflexivity | vm_compute; reflexivity | ].
  exists final. split; [exact Hrun|]. rewrite Hlog.
  repeat split; vm_compute; reflexivity.
Defined.

End Worked_more.

(** ** The spectra and the allocator *)

Section Spectra_facts.
Context {decl : Declarations} {stg : Stages}.
Open Scope prog_scope.

(** With an allocator that serves every request, [simulate_spectra_on] is
    [simulate_spectra]. *)
Lemma simulate_spectra_on_malloc {R} :
  simulate_spectra_on (R := R) malloc malloc = simulate_spectra.
Proof. reflexivity. Qed.

(** With "chirp" and "match" found, the lines run through whatever the two
    calls of [malloc] return. *)
Lemma simulate_spectra_on_runs {R} malloc_chirp_fft malloc_match_fft s i j :
  let w := chirp_matched_generator (chirp_generator (now s)) in
  get_matrix (Some (chain w)) "chirp" = Some i ->
  get_matrix (Some (chain w)) "match" = Some j ->
  exists meta_chirp meta_match,
    nodes (chain w) !! i = Some meta_chirp /\
    nodes (chain w) !! j = Some meta_match /\
    let out1 :=
      malloc_chirp_fft (m_rows meta_chirp * sizeof_complex_double)%Z in
    let out2 :=
      malloc_match_fft (m_rows meta_match * sizeof_complex_double)%Z in
    simulate_spectra_on (R := R) malloc_chirp_fft malloc_match_fft s
    = Done tt
        {| now := set_chain
                    {| header := header (chain w);
                       artifacts := artifacts (chain w)
                         ++ [spectrum_node "chirp_fft" meta_chirp meta_chirp out1;
                             spectrum_node "match_fft" meta_chirp meta_match out2] |}
                    w;
           log := log s
             ++ [Call_chirp_generator; Call_chirp_matched_generator;
                 Call_fft_waveform (m_rows meta_chirp) (m_data meta_chirp) out1;
                 Call_fft_waveform (m_rows meta_match) (m_data meta_match) out2] |}.
Proof.
  intros w Hi Hj.
  destruct (get_matrix_valid _ _ _ Hi) as (mc & Hmc & Hnc).
  destruct (get_matrix_valid _ _ _ Hj) as (mm & Hmm & Hnm).
  exists mc, mm. do 2 (split; [assumption|]). intros out1 out2.
  unfold simulate_spectra_on.
  rewrite !run_invoke. cbn [now log]. fold w.
  clearbody w. destruct w as [[h A] v input]. cbn [chain] in *.
  rewrite run_lookup. cbn [now chain]. rewrite Hi.
  rewrite (run_load i _ _ _ mc) by exact Hmc.
  rewrite run_lookup. cbn [now chain]. rewrite Hj.
  rewrite (run_load j _ _ _ mm) by exact Hmm.
  rewrite run_append. normal_state.
  rewrite (run_load i _ _ _ mc) by (by apply lookup_nodes_old).
  rewrite (run_assign _ _ _ _ zero_matrix) by apply lookup_nodes_first_new.
  normal_state. rewrite set_node_first_new.
  rewrite (run_load i _ _ _ mc) by (by apply lookup_nodes_old).
  rewrite (run_assign _ _ _ _ _) by apply lookup_nodes_first_new.
  normal_state. rewrite set_node_first_new.
  rewrite (run_load i _ _ _ mc) by (by apply lookup_nodes_old).
  rewrite (run_assign _ _ _ _ _) by apply lookup_nodes_first_new.
  normal_state. rewrite set_node_first_new.
  rewrite (run_assign _ _ _ _ _) by apply lookup_nodes_first_new.
  normal_state. rewrite set_node_first_new.
  rewrite run_append. normal_state.
  rewrite length_app, Nat.add_1_r, <- app_assoc. cbn [app length].
  rewrite (run_load j _ _ _ mm) by (by apply lookup_nodes_old).
  rewrite (run_assign _ _ _ _ _) by apply lookup_nodes_second_new.
  normal_state. rewrite set_node_second_new.
  rewrite (run_load i _ _ _ mc) by (by apply lookup_nodes_old).
  rewrite (run_assign _ _ _ _ _) by apply lookup_nodes_second_new.
  normal_state. rewrite set_node_second_new.
  rewrite (run_load i _ _ _ mc) by (by apply lookup_nodes_old).
  rewrite (run_assign _ _ _ _ _) by apply lookup_nodes_second_new.
  normal_state. rewrite set_node_second_new.
  rewrite (run_assign _ _ _ _ _) by apply lookup_nodes_second_new.
  normal_state. rewrite set_node_second_new.
  rewrite (run_load i _ _ _ mc) by (by apply lookup_nodes_old).
  erewrite bind_Done
    by (eapply call_fft_waveform_Done; apply lookup_nodes_first_new).
  normal_state. rewrite set_node_first_new.
  rewrite (run_load j _ _ _ mm) by (by apply lookup_nodes_old).
  erewrite call_fft_waveform_Done by apply lookup_nodes_second_new.
  normal_state. rewrite set_node_second_new.
  rewrite <- !app_assoc. reflexivity.
Qed.

Lemma served_elems bytes rows result :
  bytes = (rows * sizeof_complex_double)%Z ->
  served bytes result ->
  (0 <= rows)%Z /\ result = Some {| elems := rows; samples := None |}.
Proof.
  intros -> [[Hlow _] ->]. unfold sizeof_complex_double in *.
  rewrite Z.div_mul by lia. split; [lia | reflexivity].
Qed.


(** X8.  The two spectrum nodes as [simulate] fills them in when the two
    buffers are allocated: each transform is called on its own waveform,
    with the row count of that waveform and a fresh buffer of as many
    samples; the buffer of "match_fft" is sized by the rows of "match" while
    the node records the rows and the columns of "chirp".  The nodes the
    generators left stay in place, and so do the variables and the input. *)
Theorem spectrum_buffers_follow_own_rows
    malloc_chirp_fft malloc_match_fft s i j :
  let w := chirp_matched_generator (chirp_generator (now s)) in
  get_matrix (Some (chain w)) "chirp" = Some i ->
  get_matrix (Some (chain w)) "match" = Some j ->
  (forall m, nodes (chain w) !! i = Some m ->
     served (m_rows m * sizeof_complex_double)
       (malloc_chirp_fft (m_rows m * sizeof_complex_double)%Z)) ->
  (forall m, nodes (chain w) !! j = Some m ->
     served (m_rows m * sizeof_complex_double)
       (malloc_match_fft (m_rows m * sizeof_complex_double)%Z)) ->
  exists meta_chirp meta_match s' chirp_fft match_fft,
    nodes (chain w) !! i = Some meta_chirp /\
    nodes (chain w) !! j = Some meta_match /\
    simulate_spectra_on (R := Z) malloc_chirp_fft malloc_match_fft s
      = Done tt s' /\
    nodes (chain (now s')) = nodes (chain w) ++ [chirp_fft; match_fft] /\
    variables (now s') = variables w /\
    stdin (now s') = stdin w /\
    log s'
    = log s
      ++ [Call_chirp_generator; Call_chirp_matched_generator;
          Call_fft_waveform (m_rows meta_chirp) (m_data meta_chirp)
            (Some {| elems := m_rows meta_chirp; samples := None |});
          Call_fft_waveform (m_rows meta_match) (m_data meta_match)
            (Some {| elems := m_rows meta_match; samples := None |})] /\
    m_rows chirp_fft = m_rows meta_chirp /\
    m_cols chirp_fft = m_cols meta_chirp /\
    m_rows match_fft = m_rows meta_chirp /\
    m_cols match_fft = m_cols meta_chirp /\
    (exists b2, m_data match_fft = Some b2 /\ elems b2 = m_rows meta_match).
Proof.
  intros w Hi Hj Hs1 Hs2.
  destruct (simulate_spectra_on_runs (R := Z)
              malloc_chirp_fft malloc_match_fft s i j Hi Hj)
    as (mc & mm & Hmc & Hmm & Hsp).
  fold w in Hmc, Hmm.
  destruct (served_elems _ _ _ eq_refl (Hs1 _ Hmc)) as [_ Hout1].
  destruct (served_elems _ _ _ eq_refl (Hs2 _ Hmm)) as [_ Hout2].
  cbv zeta in Hsp. rewrite Hout1, Hout2 in Hsp.
  exists mc, mm. eexists _, _, _.
  do 2 (split; [assumption|]). split; [exact Hsp|].
  do 8 (split; [reflexivity|]).
  unfold spectrum_node, written. cbn [m_data]. eauto.
Qed.

End Spectra_facts.

(** ** The spectra of the stand-in stages *)

Section Worked_spectra.
Existing Instance Demo.declarations.



Lemma spectrum_buffers_follow_own_rows_witness :
  exists s' match_fft b2,
    simulate_spectra_on (stg := Variants.stages_making "chirp" 6) (R := Z)
      malloc malloc (mode_read Demo.variables0 "s" "") = Done tt s' /\
    nodes (chain (now s')) !! 4 = Some match_fft /\
    m_data match_fft = Some b2 /\
    elems b2 = 6%Z /\
    m_rows match_fft = 4%Z.
Proof.
  destruct (spectrum_buffers_follow_own_rows
              (stg := Variants.stages_making "chirp" 6) malloc malloc
              (mode_read Demo.variables0 "s" "") 1 2)
    as (mc & mm & s' & cf & mf & Hmc & Hmm & Hrun & Hnodes & _ & _ & _
        & _ & _ & Hr2 & _ & b2 & Hd2 & He2);
    [ reflexivity | reflexivity | | | ].
  - intros m Hm. vm_compute in Hm. injection Hm as <-.
    split; [vm_compute; split; discriminate | reflexivity].
  - intros m Hm. vm_compute in Hm. injection Hm as <-.
    split; [vm_compute; split; discriminate | reflexivity].
  - vm_compute in Hmc, Hmm. injection Hmc as <-. injection Hmm as <-.
    exists s', mf, b2. split; [exact Hrun|]. rewrite Hnodes.
    repeat split; assumption || reflexivity.
Defined.

End Worked_spectra.
